(** * Job state machine of the pipeline tools CD manager

    A shallow embedding of the smoke-test job ([cd/manager/jobs/smoke.go])
    and of the Discord notification builder
    ([cd/manager/notifs/discord.go]).

    Go code with effects (the wall clock, the task backend, the database,
    the notifier, run-time panics) is written in a small state-and-panic
    monad over an explicit [World]. *)

From Stdlib Require Import ZArith Ascii String List Lia.
From stdpp Require Import base option gmap strings list fin_maps.

Local Open Scope Z_scope.
Local Open Scope string_scope.

(** ** Data model *)

(** Modelled from the spec: the type [JobStage], declared outside the two
    files embedded here; the spec gives the stage vocabulary as these
    nine values. *)
Inductive JobStage :=
| JobStage_Queued
| JobStage_Dequeued
| JobStage_Started
| JobStage_Waiting
| JobStage_Delayed
| JobStage_Skipped
| JobStage_Failed
| JobStage_Canceled
| JobStage_Completed.

(** Modelled from the spec: the type [JobType], declared outside the two
    files embedded here: the four job types the spec names and the
    notification builder enumerates, and the further types the spec
    leaves open, told apart by their names. *)
Inductive JobType :=
| JobType_Deploy
| JobType_Anchor
| JobType_TestE2E
| JobType_TestSmoke
| JobType_Other (name : string).

#[global] Instance JobStage_eq_dec : EqDecision JobStage.
Proof. solve_decision. Defined.

#[global] Instance JobType_eq_dec : EqDecision JobType.
Proof. solve_decision. Defined.

(** Go [error] values: the two sentinel errors of package [manager]
    ([manager.Error_StartupTimeout], [manager.Error_CompletionTimeout])
    and errors built from a message ([fmt.Errorf], backend failures). *)
Inductive error :=
| Error_StartupTimeout
| Error_CompletionTimeout
| errorString (msg : string).

(** The dynamic values ([interface{}]) stored in [Params]. *)
Inductive ParamValue :=
| VString (s : string)
| VInt64 (n : Z)
| VBool (b : bool)
| VError (e : error).

(** A Go map with string keys: [nil], or allocated with its entries.
    Reading a nil map gives the zero value of its values, as reading a
    missing key does; assigning to an entry of a nil map panics. *)
Inductive GoMap (V : Type) :=
| NilMap
| Allocated (entries : gmap string V).
Arguments NilMap {V}.
Arguments Allocated {V} entries.

Definition entriesOf {V : Type} (m : GoMap V) : gmap string V :=
  match m with
  | NilMap => ∅
  | Allocated entries => entries
  end.

(** [m !! k]: the entry under [k], if there is one. *)
#[global] Instance GoMap_lookup {V : Type} : Lookup string V (GoMap V) :=
  fun k m => entriesOf m !! k.

(** The allocated map without entries, the allocated map with one entry
    and the allocated map with one more entry: the notations [∅],
    [{[k := v]}] and [<[k := v]> m] build map values. The statement
    [m[k] = v] of the sources is [assign], not [<[k := v]> m]. *)
#[global] Instance GoMap_empty {V : Type} : Empty (GoMap V) := Allocated ∅.

#[global] Instance GoMap_singleton {V : Type} : SingletonM string V (GoMap V) :=
  fun k v => Allocated {[ k := v ]}.

#[global] Instance GoMap_insert {V : Type} : Insert string V (GoMap V) :=
  fun k v m => Allocated (<[ k := v ]> (entriesOf m)).

(** The assignment [m[k] = v]: on a nil map it panics ([None]). *)
Definition assign {V : Type} (m : GoMap V) (k : string) (v : V)
    : option (GoMap V) :=
  match m with
  | NilMap => None
  | Allocated entries => Some (Allocated (<[ k := v ]> entries))
  end.

(** [time.Time] is an instant in nanoseconds since the Unix epoch and
    [time.Duration] a signed count of nanoseconds. *)
Definition Time := Z.
Definition Duration := Z.

Definition Nanosecond : Duration := 1.
Definition Second : Duration := 1000000000 * Nanosecond.
Definition Minute : Duration := 60 * Second.

(** Two's complement wrap-around of a 64-bit signed integer. *)
Definition wrap64 (z : Z) : Z := (z + 2 ^ 63) mod 2 ^ 64 - 2 ^ 63.

(** [Time.UnixNano]: the instant as an [int64]. *)
Definition UnixNano (t : Time) : Z := wrap64 t.

(** Modelled from the spec: the struct [JobState], declared outside the
    two files embedded here, with the five fields the spec lists and the
    sources read. [Params] is a Go map and may be nil. *)
Record JobState := {
  Stage : JobStage;
  Ts : Time;
  Id : string;
  Type_ : JobType;
  Params : GoMap ParamValue
}.

(** The stages from which no further progress is expected. *)
Definition terminal (st : JobStage) : bool :=
  match st with
  | JobStage_Failed | JobStage_Canceled | JobStage_Completed => true
  | _ => false
  end.

(** ** Effects *)

(** What a run leaves behind outside the job: calls to the task backend,
    writes to the database and states handed to the notifier. *)
Inductive Event :=
| EvLaunchTask (cluster family container netcfg : string)
| EvCheckTask (cluster taskArn : string) (running extra : bool) (id : string)
| EvSaveJob (js : JobState)
| EvNotifyJob (js : JobState)
| EvGetDeployHashes.

(** The wall clock is a sequence of readings: the [n]-th call of
    [time.Now] returns [clock n]. *)
Record World := {
  clock : nat -> Time;
  reads : nat;
  trace : list Event
}.

Inductive panic :=
| InterfaceConversion
| SliceBoundsOutOfRange
| AssignmentToNilMap.

Inductive Res (A : Type) :=
| Ok (a : A) (w : World)
| Panicked (p : panic).
Arguments Ok {A} a w.
Arguments Panicked {A} p.

Definition M (A : Type) : Type := World -> Res A.

Definition ret {A : Type} (a : A) : M A := fun w => Ok a w.

Definition bind {A B : Type} (m : M A) (f : A -> M B) : M B := fun w =>
  match m w with
  | Ok a w' => f a w'
  | Panicked p => Panicked p
  end.

Declare Scope go_scope.
Delimit Scope go_scope with go.
Notation "'let*' x ':=' m 'in' k" := (bind m (fun x => k))
  (at level 10, x name, m at level 100, k at level 200) : go_scope.
Notation "'let*' ' pat ':=' m 'in' k" :=
  (bind m (fun x => match x with pat => k end))
  (at level 10, pat pattern, m at level 100, k at level 200) : go_scope.
Local Open Scope go_scope.

Definition throw {A : Type} (p : panic) : M A := fun _ => Panicked p.

(** [time.Now()] *)
Definition Now : M Time := fun w =>
  Ok (clock w (reads w))
     {| clock := clock w; reads := S (reads w); trace := trace w |}.

Definition emit (e : Event) : M unit := fun w =>
  Ok tt {| clock := clock w; reads := reads w; trace := (trace w ++ [e])%list |}.

(** The type assertion [v.(string)] on a map lookup: it panics ([None])
    when the key is absent (nil interface) or holds a value of another
    type. *)
Definition assertString (v : option ParamValue) : option string :=
  match v with
  | Some (VString s) => Some s
  | _ => None
  end.

(** A partial step inside a run: [None] is the panic [p]. *)
Definition orPanic {A : Type} (p : panic) (o : option A) : M A :=
  match o with
  | Some a => ret a
  | None => throw p
  end.

(** Short-circuit [b && m]: [m] runs only when [b] holds. *)
Definition andThen (b : bool) (m : M bool) : M bool :=
  if b then m else ret false.

(** The world after [n] more clock readings and the events [evs]. *)
Definition after (n : nat) (evs : list Event) (w : World) : World :=
  {| clock := clock w; reads := (n + reads w)%nat; trace := (trace w ++ evs)%list |}.

(** The backend calls of a run, in order. *)
Definition isBackendCall (e : Event) : bool :=
  match e with
  | EvLaunchTask _ _ _ _ | EvCheckTask _ _ _ _ _ => true
  | _ => false
  end.

Definition backendCalls (t : list Event) : list Event :=
  List.filter isBackendCall t.

(** Whether a run returns, rather than panics. *)
Definition returns {A : Type} (r : Res A) : bool :=
  match r with
  | Ok _ _ => true
  | Panicked _ => false
  end.

(** The stage of the state a run returns, if it returns. *)
Definition resultStage (r : Res (JobState * option error)) : option JobStage :=
  match r with
  | Ok (js, _) _ => Some (Stage js)
  | Panicked _ => None
  end.

(** ** Package [manager]: declarations used by the sources *)

(** Constants and helpers of packages [manager] and [job] that the two
    files use and that are declared elsewhere: they are parameters of
    the development. *)
Class Manager := {
  JobParam_Id : string;
  JobParam_Start : string;
  JobParam_Error : string;
  JobParam_Sha : string;
  JobParam_Component : string;
  DefaultWaitTime : Duration;
  PrintJob : JobState -> string;
  IsActiveJob : JobState -> bool;
  (* the string behind a stage, as [%s] prints it *)
  JobStageString : JobStage -> string;
  (* the conversion [manager.NotifField(jobType)] *)
  NotifField : JobType -> string;
  NotifField_JobId : string;
  NotifField_CommitHashes : string;
  NotifField_Time : string;
  DeployComponent_Ceramic : string;
  DeployComponent_Cas : string;
  DeployComponent_Ipfs : string;
  ComponentRepo : string -> string;
  GitHubOrg : string;
  (* [regexp.MatchString(manager.CommitHashRegex, sha)] *)
  matchesCommitHashRegex : string -> bool;
  (* [t.Format(time.RFC1123)] *)
  FormatRFC1123 : Time -> string
}.

(** Modelled from the spec: the interface [manager.Deployment] of the
    task-control backend, declared outside the two files embedded here,
    with the arguments the smoke-test job passes. Within one run of
    [Advance] the backend is called at most once, so an answer per call
    is enough. *)
Record Deployment := {
  LaunchTask : string -> string -> string -> string -> option (list string) ->
               string * option error;
  CheckTask : string -> string -> bool -> bool -> string -> bool * option error
}.

Module Jobs.
Section Smoke.
Context `{Manager}.

(** Allow up to 15 minutes for smoke tests to run *)
Definition smokeTestFailureTime : Duration := 15 * Minute.

Definition ClusterName := "ceramic-qa-tests".
Definition FamilyPrefix := "ceramic-qa-tests-smoke--".
Definition ContainerName := "ceramic-qa-tests-smoke".
Definition NetworkConfigurationParameter :=
  "/ceramic-qa-tests-smoke/network_configuration".

Record smokeTestJob := {
  state : JobState;
  env : string;
  d : Deployment
}.

(** Modelled from the spec: [job.IsTimedOut], whose source lies outside
    the two files embedded here. The spec gives it as
    [(now - state.Ts) > threshold]; [IsTimedOutAt] is that predicate at an
    injected [now]. *)
Definition IsTimedOutAt (now : Time) (js : JobState) (threshold : Duration) : bool :=
  (now - Ts js) >? threshold.

(** Modelled from the spec: [job.IsTimedOut] as called with two
    arguments, taking [now] from the wall clock. *)
Definition IsTimedOut (js : JobState) (threshold : Duration) : M bool :=
  let* now := Now in ret (IsTimedOutAt now js threshold).

(** Modelled from the spec: the transition primitive [baseJob.advance],
    whose source lies outside the two files embedded here. It copies
    the input state, overwrites [Stage] and [Ts], records the error (when
    there is one) in an error field of [Params], writes the new state
    through to the database, hands it once to the notifier and returns it.
    The spec leaves the returned error open; the model returns the error
    it was given. [nextState] is the state the primitive builds; the spec
    names no case in which the error field is not recorded, and the model
    records it on a nil [Params] too. *)
Definition nextState (js : JobState) (stage : JobStage) (ts : Time)
    (e : option error) : JobState :=
  {| Stage := stage;
     Ts := ts;
     Id := Id js;
     Type_ := Type_ js;
     Params := match e with
               | Some err => <[JobParam_Error := VError err]> (Params js)
               | None => Params js
               end |}.

(** Modelled from the spec: [baseJob.advance] itself, in the order the
    spec lists its steps: build the next state, write it through to the
    database, forward it once to the notifier, return it. *)
Definition advance (js : JobState) (stage : JobStage) (ts : Time)
    (e : option error) : M (JobState * option error) :=
  let next := nextState js stage ts e in
  let* _u := emit (EvSaveJob next) in
  let* _u := emit (EvNotifyJob next) in
  ret (next, e).

Definition callLaunchTask (dep : Deployment)
    (cluster family container netcfg : string) (overrides : option (list string))
    : M (string * option error) :=
  let* _u := emit (EvLaunchTask cluster family container netcfg) in
  ret (LaunchTask dep cluster family container netcfg overrides).

Definition callCheckTask (dep : Deployment)
    (cluster taskArn : string) (running extra : bool) (id : string)
    : M (bool * option error) :=
  let* _u := emit (EvCheckTask cluster taskArn running extra id) in
  ret (CheckTask dep cluster taskArn running extra id).

(** The statement [s.state.Params[k] = v]: it panics ([None]) when
    [Params] is nil. *)
Definition setParam (js : JobState) (k : string) (v : ParamValue)
    : option JobState :=
  match assign (Params js) k v with
  | None => None
  | Some params =>
    Some {| Stage := Stage js; Ts := Ts js; Id := Id js; Type_ := Type_ js;
            Params := params |}
  end.

Definition checkTests (s : smokeTestJob) (expectedToBeRunning : bool)
    : M (bool * option error) :=
  let* id := orPanic InterfaceConversion
              (assertString (Params (state s) !! JobParam_Id)) in
  let* '(status, err) := callCheckTask (d s) ClusterName "" expectedToBeRunning false id in
  match err with
  | Some _ => ret (false, err)
  | None =>
    if status then ret (true, None)
    else
      let* startupLate := andThen expectedToBeRunning
                            (IsTimedOut (state s) DefaultWaitTime) in
      if startupLate then ret (false, Some Error_StartupTimeout)
      else
        let* completionLate := andThen (negb expectedToBeRunning)
                                 (IsTimedOut (state s) smokeTestFailureTime) in
        if completionLate then ret (false, Some Error_CompletionTimeout)
        else ret (false, None)
  end.

(** The timeout that applies to a poll of [checkTests], and the error
    raised when it has passed. *)
Definition pollTimeout (expectedToBeRunning : bool) : Duration :=
  if expectedToBeRunning then DefaultWaitTime else smokeTestFailureTime.

Definition pollError (expectedToBeRunning : bool) : error :=
  if expectedToBeRunning then Error_StartupTimeout else Error_CompletionTimeout.

Definition Advance (s : smokeTestJob) : M (JobState * option error) :=
  let* now := Now in
  match Stage (state s) with
  | JobStage_Queued =>
    advance (state s) JobStage_Dequeued (Ts (state s)) None
  | JobStage_Dequeued =>
    let* '(id, err) := callLaunchTask (d s) ClusterName (FamilyPrefix +:+ env s)
                         ContainerName NetworkConfigurationParameter None in
    match err with
    | Some _ => advance (state s) JobStage_Failed now err
    | None =>
      (* Update the job stage and spawned task identifier *)
      let* st1 := orPanic AssignmentToNilMap
                    (setParam (state s) JobParam_Id (VString id)) in
      let* started := Now in
      let* st2 := orPanic AssignmentToNilMap
                    (setParam st1 JobParam_Start (VInt64 (UnixNano started))) in
      advance st2 JobStage_Started now err
    end
  | JobStage_Started =>
    let* '(started, err) := checkTests s true in
    match err with
    | Some _ => advance (state s) JobStage_Failed now err
    | None =>
      if started then advance (state s) JobStage_Waiting now None
      else ret (state s, None)
    end
  | JobStage_Waiting =>
    let* '(stopped, err) := checkTests s false in
    match err with
    | Some _ => advance (state s) JobStage_Failed now err
    | None =>
      if stopped then advance (state s) JobStage_Completed now None
      else ret (state s, None)
    end
  | _ =>
    advance (state s) JobStage_Failed now
      (Some (errorString ("smokeTestJob: unexpected state: " +:+ PrintJob (state s))))
  end.

(** The time a poll has waited when [checkTests] asks [IsTimedOut]: the
    reading [IsTimedOut] takes is the second one of a run of [Advance]
    (the first is [now]), and it is compared with the [Ts] of the state. *)
Definition elapsed (s : smokeTestJob) (w : World) : Duration :=
  clock w (S (reads w)) - Ts (state s).

(** The error of the defensive branch of [Advance]. *)
Definition unexpectedState (js : JobState) : error :=
  errorString ("smokeTestJob: unexpected state: " +:+ PrintJob js).

(** The state [Advance] works on in stage [Dequeued] once the launch
    succeeded and the task identifier, then the start time, were written
    to [Params]. *)
Definition launched (js : JobState) (id : string) (started : Time) : JobState :=
  {| Stage := Stage js; Ts := Ts js; Id := Id js; Type_ := Type_ js;
     Params := <[JobParam_Start := VInt64 (UnixNano started)]>
                 (<[JobParam_Id := VString id]> (Params js)) |}.

(** The trace entry of the launch call of [Advance]. *)
Definition launchEvent (s : smokeTestJob) : Event :=
  EvLaunchTask ClusterName (FamilyPrefix +:+ env s) ContainerName
    NetworkConfigurationParameter.

(** The driver's loop: a job is built again from the state the previous
    call returned and advanced once more. *)
Fixpoint AdvanceTimes (n : nat) (s : smokeTestJob) : M (JobState * option error) :=
  match n with
  | O => ret (state s, None)
  | S O => Advance s
  | S n' =>
    let* '(js, _) := Advance s in
    AdvanceTimes n' {| state := js; env := env s; d := d s |}
  end.

End Smoke.
End Jobs.

Module Notifs.
Section Discord.
Context `{Manager}.

(** [discord.EmbedField], with the two fields the builder fills. *)
Record EmbedField := {
  Name : string;
  Value : string
}.

(** Modelled from the spec: the interface [manager.Database], declared
    outside the two files embedded here, as far as the notification
    builder uses it: [GetDeployHashes] answers with the commit hash per
    component, or with a storage error. *)
Record Database := {
  GetDeployHashes : GoMap string * option error
}.

(** Modelled from the spec: the registry behind [manager.Cache],
    declared outside the two files embedded here: the known job states,
    keyed by job id. *)
Record Cache := {
  jobs : gmap string JobState
}.

(** Modelled from the spec: recording a transition in the registry, whose
    source lies outside the two files embedded here; the registry is
    keyed by [Id] and the last writer wins. *)
Definition WriteJob (js : JobState) (c : Cache) : Cache :=
  {| jobs := <[Id js := js]> (jobs c) |}.

(** Modelled from the spec: [Cache.JobsByMatcher], whose source lies
    outside the two files embedded here. It returns the registered job
    states that satisfy the predicate, in no particular order. *)
Definition JobsByMatcher (c : Cache) (matcher : JobState -> bool) : list JobState :=
  List.filter matcher (snd <$> map_to_list (jobs c)).

(** The struct [JobNotifs] without its three webhook clients, which the
    functions below do not touch. *)
Record JobNotifs := {
  db : Database;
  cache : Cache;
  env : string
}.

Definition newline : string := String "010"%char "".

(** The slice expression [s[:n]] on a string. *)
Definition sliceTo (s : string) (n : nat) : M string :=
  if (n <=? String.length s)%nat then ret (substring 0 n s)
  else throw SliceBoundsOutOfRange.

Definition getComponentMsg (component : string) (sha : string) : M string :=
  let repo := ComponentRepo component in
  let* short := sliceTo sha 12 in
  ret ("[" +:+ repo +:+ " (" +:+ short +:+ ")](https://github.com/" +:+
       GitHubOrg +:+ "/" +:+ repo +:+ "/commit/" +:+ sha +:+ ")").

(** Reading a Go map: an absent key gives the zero value. *)
Definition hashOf (commitHashes : GoMap string) (component : string) : string :=
  default "" (commitHashes !! component).

(** The first half of [getDeployHashes]: for a deploy job whose own hash
    is valid, that hash is written over the one from the database. The
    two type assertions panic ([None]) on a missing or ill-typed
    parameter, and so does the assignment when the mapping is nil. *)
Definition overwriteJobHash (jobState : JobState)
    (commitHashes : GoMap string) : option (GoMap string) :=
  if decide (Type_ jobState = JobType_Deploy) then
    match assertString (Params jobState !! JobParam_Sha) with
    | None => None
    | Some sha =>
      (* If the specified hash is valid, overwrite the previous hash from
         the database. *)
      if matchesCommitHashRegex sha then
        match assertString (Params jobState !! JobParam_Component) with
        | None => None
        | Some component => assign commitHashes component sha
        end
      else Some commitHashes
    end
  else Some commitHashes.

(** The panic of a failed override: that of the first type assertion
    that fails, and when both pass, that of the assignment to an entry of
    a nil map. *)
Definition overwritePanic (jobState : JobState) : panic :=
  match assertString (Params jobState !! JobParam_Sha) with
  | None => InterfaceConversion
  | Some _ =>
    match assertString (Params jobState !! JobParam_Component) with
    | None => InterfaceConversion
    | Some _ => AssignmentToNilMap
    end
  end.

Definition getDeployHashes (n : JobNotifs) (jobState : JobState) : M string :=
  let* _u := emit EvGetDeployHashes in
  let '(commitHashes, err) := GetDeployHashes (db n) in
  match err with
  | Some _ => ret ""
  | None =>
    let* commitHashes := orPanic (overwritePanic jobState)
                           (overwriteJobHash jobState commitHashes) in
    let* ceramicMsg := getComponentMsg DeployComponent_Ceramic
                         (hashOf commitHashes DeployComponent_Ceramic) in
    let* casMsg := getComponentMsg DeployComponent_Cas
                     (hashOf commitHashes DeployComponent_Cas) in
    let* ipfsMsg := getComponentMsg DeployComponent_Ipfs
                      (hashOf commitHashes DeployComponent_Ipfs) in
    ret (ceramicMsg +:+ newline +:+ casMsg +:+ newline +:+ ipfsMsg)
  end.

(** One line of the active-jobs message: [Sprintf("%s (%s)\n", Id, Stage)]. *)
Definition jobLine (activeJob : JobState) : string :=
  Id activeJob +:+ " (" +:+ JobStageString (Stage activeJob) +:+ ")" +:+ newline.

Definition getActiveJobsByType (n : JobNotifs) (jobState : JobState)
    (jobType : JobType) : EmbedField * bool :=
  let activeJobs :=
    JobsByMatcher (cache n)
      (fun js => IsActiveJob js && bool_decide (Type_ js = jobType)) in
  let message :=
    fold_left
      (fun message activeJob =>
         (* Exclude job for which this notification is being generated *)
         if bool_decide (Id activeJob <> Id jobState)
         then message +:+ jobLine activeJob
         else message)
      activeJobs "" in
  ({| Name := NotifField jobType +:+ ":"; Value := message |},
   (0 <? String.length message)%nat).

Definition appendFound (fields : list EmbedField) (r : EmbedField * bool)
    : list EmbedField :=
  if snd r then (fields ++ [fst r])%list else fields.

Definition getActiveJobs (n : JobNotifs) (jobState : JobState) : list EmbedField :=
  let fields := [] in
  let fields := appendFound fields (getActiveJobsByType n jobState JobType_Deploy) in
  let fields := appendFound fields (getActiveJobsByType n jobState JobType_Anchor) in
  let fields := appendFound fields (getActiveJobsByType n jobState JobType_TestE2E) in
  let fields := appendFound fields (getActiveJobsByType n jobState JobType_TestSmoke) in
  fields.

Definition getNotifFields (n : JobNotifs) (jobState : JobState)
    : M (list EmbedField) :=
  let fields := [ {| Name := NotifField_JobId; Value := Id jobState |} ] in
  (* Return deploy hashes for all jobs, if we were able to retrieve them
     successfully. *)
  let* commitHashes := getDeployHashes n jobState in
  let fields :=
    if (0 <? String.length commitHashes)%nat
    then (fields ++ [ {| Name := NotifField_CommitHashes; Value := commitHashes |} ])%list
    else fields in
  let* now := Now in
  let fields := (fields ++ [ {| Name := NotifField_Time; Value := FormatRFC1123 now |} ])%list in
  (* Add the list of jobs in progress *)
  let activeJobs := getActiveJobs n jobState in
  let fields :=
    if (0 <? List.length activeJobs)%nat then (fields ++ activeJobs)%list else fields in
  ret fields.

(** The jobs the per-type field is meant to list: registered, active, of
    the type asked for, and not the job the notification is about. *)
Definition listedJobs (n : JobNotifs) (jobState : JobState) (jobType : JobType)
    : list JobState :=
  List.filter (fun js => bool_decide (Id js <> Id jobState))
    (JobsByMatcher (cache n)
       (fun js => IsActiveJob js && bool_decide (Type_ js = jobType))).

(** The text of a list of jobs, one line each. *)
Definition jobLines (l : list JobState) : string :=
  fold_right (fun js rest => jobLine js +:+ rest) "" l.

(** A registry is well keyed when every state sits under its own id. *)
Definition wellKeyed (c : Cache) : Prop :=
  forall k js, jobs c !! k = Some js -> Id js = k.

End Discord.
End Notifs.

(** ** Sample inputs *)

Module Samples.
Import Jobs Notifs.

(** One possible choice for the declarations of package [manager]; the
    examples below are run with it. *)
Definition manager : Manager := {|
  JobParam_Id := "id";
  JobParam_Start := "start";
  JobParam_Error := "error";
  JobParam_Sha := "sha";
  JobParam_Component := "component";
  DefaultWaitTime := 5 * Minute;
  PrintJob := Id;
  IsActiveJob := fun js => negb (terminal (Stage js));
  JobStageString := fun st =>
    match st with
    | JobStage_Queued => "queued"
    | JobStage_Dequeued => "dequeued"
    | JobStage_Started => "started"
    | JobStage_Waiting => "waiting"
    | JobStage_Delayed => "delayed"
    | JobStage_Skipped => "skipped"
    | JobStage_Failed => "failed"
    | JobStage_Canceled => "canceled"
    | JobStage_Completed => "completed"
    end;
  NotifField := fun jt =>
    match jt with
    | JobType_Deploy => "deploy"
    | JobType_Anchor => "anchor"
    | JobType_TestE2E => "test_e2e"
    | JobType_TestSmoke => "test_smoke"
    | JobType_Other name => name
    end;
  NotifField_JobId := "Job ID";
  NotifField_CommitHashes := "Commit Hashes";
  NotifField_Time := "Time";
  DeployComponent_Ceramic := "ceramic";
  DeployComponent_Cas := "cas";
  DeployComponent_Ipfs := "ipfs";
  ComponentRepo := fun c => c;
  GitHubOrg := "ceramicnetwork";
  matchesCommitHashRegex := fun sha => (String.length sha =? 40)%nat;
  FormatRFC1123 := fun _ => "Thu, 01 Jan 1970 00:00:00 UTC"
|}.

(** A backend answering every call with the given results. *)
Definition backend (launch : string * option error) (check : bool * option error)
    : Deployment :=
  {| LaunchTask := fun _ _ _ _ _ => launch;
     CheckTask := fun _ _ _ _ _ => check |}.

(** A clock that starts at [t0] and gains a second with every reading. *)
Definition worldAt (t0 : Time) : World :=
  {| clock := fun n => t0 + Z.of_nat n * Second; reads := 0; trace := [] |}.

Definition jobState (id : string) (ty : JobType) (st : JobStage) (ts : Time)
    : JobState :=
  {| Stage := st; Ts := ts; Id := id; Type_ := ty;
     Params := {[ "id" := VString "task-123" ]} |}.

Definition smokeJob (st : JobStage) (ts : Time) (dep : Deployment) : smokeTestJob :=
  {| state := jobState "job-1" JobType_TestSmoke st ts;
     Jobs.env := "qa";
     d := dep |}.

Definition pending : Deployment := backend ("task-123", None) (false, None).
Definition reached : Deployment := backend ("task-123", None) (true, None).
Definition broken : Deployment :=
  backend ("", Some (errorString "launch refused"))
          (false, Some (errorString "backend unreachable")).

Definition registry : Cache :=
  WriteJob (jobState "job-3" JobType_TestSmoke JobStage_Completed 30)
    (WriteJob (jobState "job-2" JobType_TestSmoke JobStage_Waiting 20)
       (WriteJob (jobState "job-1" JobType_TestSmoke JobStage_Started 10)
          {| jobs := ∅ |})).

Definition notifs (hashes : GoMap string) : JobNotifs :=
  {| db := {| GetDeployHashes := (hashes, None) |};
     cache := registry;
     Notifs.env := "qa" |}.

End Samples.

(** ** The transition table of the smoke-test job *)

Module Steps.
Import Jobs.
Section Smoke.
Context `{Manager}.

(** The edges of the stage graph that [Advance] can take, read off its
    [switch]: one row per case, the last row for the [default] branch. *)
Definition allowedNext (from to : JobStage) : bool :=
  match from, to with
  | JobStage_Queued, JobStage_Dequeued => true
  | JobStage_Queued, _ => false
  | JobStage_Dequeued, (JobStage_Started | JobStage_Failed) => true
  | JobStage_Dequeued, _ => false
  | JobStage_Started, (JobStage_Started | JobStage_Waiting | JobStage_Failed) => true
  | JobStage_Started, _ => false
  | JobStage_Waiting, (JobStage_Waiting | JobStage_Completed | JobStage_Failed) => true
  | JobStage_Waiting, _ => false
  | _, JobStage_Failed => true
  | _, _ => false
  end.

(** The entries of a trace that record a transition. *)
Definition isTransition (e : Event) : bool :=
  match e with
  | EvSaveJob _ | EvNotifyJob _ => true
  | _ => false
  end.

Definition transitions (t : list Event) : list Event :=
  List.filter isTransition t.

(** The events of a run that ends in a transition to [js]. *)
Definition moved (before : list Event) (js : JobState) : list Event :=
  (before ++ [EvSaveJob js; EvNotifyJob js])%list.

(** The time since [Ts] at the reading of the clock that [IsTimedOut]
    takes when [checkTests] runs in the world [w]. *)
Definition elapsedAt (w : World) (js : JobState) : Duration :=
  clock w (reads w) - Ts js.

(** The two polling cases of [Advance]: what [checkTests] is asked and
    the stage a positive answer leads to. *)
Definition polling (s : smokeTestJob) (running : bool) (next : JobStage) : Prop :=
  (running = true /\ Stage (state s) = JobStage_Started /\ next = JobStage_Waiting) \/
  (running = false /\ Stage (state s) = JobStage_Waiting /\ next = JobStage_Completed).

(** [Advance] as a relation between the job, the world before, and the
    state, error and world after: one rule per path through the
    function on which it returns. *)
Inductive Step (s : smokeTestJob) (w : World)
    : JobState -> option error -> World -> Prop :=
| Step_dequeue js :
    Stage (state s) = JobStage_Queued ->
    js = nextState (state s) JobStage_Dequeued (Ts (state s)) None ->
    Step s w js None (after 1 (moved [] js) w)
| Step_launch_failed id err js :
    Stage (state s) = JobStage_Dequeued ->
    LaunchTask (d s) ClusterName (FamilyPrefix +:+ env s) ContainerName
      NetworkConfigurationParameter None = (id, Some err) ->
    js = nextState (state s) JobStage_Failed (clock w (reads w)) (Some err) ->
    Step s w js (Some err) (after 1 (moved [launchEvent s] js) w)
| Step_launched id js :
    Stage (state s) = JobStage_Dequeued ->
    LaunchTask (d s) ClusterName (FamilyPrefix +:+ env s) ContainerName
      NetworkConfigurationParameter None = (id, None) ->
    Params (state s) <> NilMap ->
    js = nextState (launched (state s) id (clock w (S (reads w))))
           JobStage_Started (clock w (reads w)) None ->
    Step s w js None (after 2 (moved [launchEvent s] js) w)
| Step_poll_error running next tid answer err js :
    polling s running next ->
    Params (state s) !! JobParam_Id = Some (VString tid) ->
    CheckTask (d s) ClusterName "" running false tid = (answer, Some err) ->
    js = nextState (state s) JobStage_Failed (clock w (reads w)) (Some err) ->
    Step s w js (Some err)
      (after 1 (moved [EvCheckTask ClusterName "" running false tid] js) w)
| Step_poll_reached running next tid js :
    polling s running next ->
    Params (state s) !! JobParam_Id = Some (VString tid) ->
    CheckTask (d s) ClusterName "" running false tid = (true, None) ->
    js = nextState (state s) next (clock w (reads w)) None ->
    Step s w js None
      (after 1 (moved [EvCheckTask ClusterName "" running false tid] js) w)
| Step_poll_timeout running next tid js :
    polling s running next ->
    Params (state s) !! JobParam_Id = Some (VString tid) ->
    CheckTask (d s) ClusterName "" running false tid = (false, None) ->
    IsTimedOutAt (clock w (S (reads w))) (state s) (pollTimeout running) = true ->
    js = nextState (state s) JobStage_Failed (clock w (reads w))
           (Some (pollError running)) ->
    Step s w js (Some (pollError running))
      (after 2 (moved [EvCheckTask ClusterName "" running false tid] js) w)
| Step_poll_wait running next tid :
    polling s running next ->
    Params (state s) !! JobParam_Id = Some (VString tid) ->
    CheckTask (d s) ClusterName "" running false tid = (false, None) ->
    IsTimedOutAt (clock w (S (reads w))) (state s) (pollTimeout running) = false ->
    Step s w (state s) None
      (after 2 [EvCheckTask ClusterName "" running false tid] w)
| Step_unexpected js :
    Stage (state s) <> JobStage_Queued ->
    Stage (state s) <> JobStage_Dequeued ->
    Stage (state s) <> JobStage_Started ->
    Stage (state s) <> JobStage_Waiting ->
    js = nextState (state s) JobStage_Failed (clock w (reads w))
           (Some (unexpectedState (state s))) ->
    Step s w js (Some (unexpectedState (state s))) (after 1 (moved [] js) w).

End Smoke.
End Steps.

(** ** The Discord notifier: webhooks, titles, colours, sending *)

Module Discord.
Import Notifs.

(** [type DiscordColor int] and its constants; [DiscordColor_None] is
    the [iota] of the first line of the block. *)
Definition DiscordColor := Z.
Definition DiscordColor_None : DiscordColor := 0.
Definition DiscordColor_Info : DiscordColor := 3447003.
Definition DiscordColor_Ok : DiscordColor := 3581519.
Definition DiscordColor_Warning : DiscordColor := 16776960.
Definition DiscordColor_Alert : DiscordColor := 16711712.

Definition DiscordPacing : Duration := 2 * Second.

(** A webhook client as [webhook.New(id, token)] builds it. Where the
    source holds a [webhook.Client], possibly nil, the embedding holds an
    [option WebhookClient]. *)
Record WebhookClient := {
  webhookId : Z;
  webhookToken : string
}.

(** The three webhook fields of the struct [JobNotifs]; they travel
    beside the record [Notifs.JobNotifs], which holds its other fields. *)
Record Webhooks := {
  deploymentsWebhook : option WebhookClient;
  communityWebhook : option WebhookClient;
  testWebhook : option WebhookClient
}.

Inductive EmbedType := EmbedTypeRich.

(** [discord.Embed] with the fields [sendNotif] sets; [Kind] is the
    field [Type]. *)
Record Embed := {
  Title : string;
  Kind : EmbedType;
  Fields : list EmbedField;
  Color : Z
}.

(** The message [sendNotif] builds: its embeds and its user name. *)
Record WebhookMessage := {
  Embeds : list Embed;
  Username : string
}.

(** What the notifier does to the outside: messages handed to a webhook
    (with the delay asked for) and lines written to the log. *)
Inductive Output :=
| OutCreateMessage (channel : WebhookClient) (msg : WebhookMessage) (delay : Duration)
| OutLogSendError (err : error) (title : string) (fields : list EmbedField)
    (color : DiscordColor)
| OutLog (line : string).

(** What a function that can fail or panic on an index comes to. *)
Inductive Outcome (A : Type) :=
| Returned (a : A)
| Errored (e : error)
| IndexOutOfRange.
Arguments Returned {A} a.
Arguments Errored {A} e.
Arguments IndexOutOfRange {A}.

Definition andThenOutcome {A B : Type} (o : Outcome A) (k : A -> Outcome B)
    : Outcome B :=
  match o with
  | Returned a => k a
  | Errored e => Errored e
  | IndexOutOfRange => IndexOutOfRange
  end.

(** Declarations of package [manager], library functions and the process
    environment that the notifier uses and that live outside the file:
    they are parameters of the development. *)
Class Externals := {
  (* [os.Getenv] *)
  Getenv : string -> string;
  (* [url.Parse], giving the [Path] of the parsed URL *)
  urlParse : string -> string + error;
  (* [snowflake.Parse] *)
  snowflakeParse : string -> Z + error;
  (* [strings.ToUpper] *)
  ToUpper : string -> string;
  EnvType_Dev : string;
  EnvType_Qa : string;
  EnvName : string -> string;
  JobName : JobType -> string;
  JobParam_Manual : string;
  ServiceName : string;
  (* the answer of [channel.CreateMessage] *)
  CreateMessage : WebhookClient -> WebhookMessage -> option error
}.

(** [strings.Split(s, sep)] for a separator of one byte: the pieces of
    [s] between the occurrences of [sep], one more than there are
    occurrences. *)
Fixpoint splitOn (sep : ascii) (s : string) : list string :=
  match s with
  | EmptyString => [EmptyString]
  | String c rest =>
    if Ascii.eqb c sep then EmptyString :: splitOn sep rest
    else match splitOn sep rest with
         | piece :: pieces => String c piece :: pieces
         | [] => [String c EmptyString]
         end
  end.

Fixpoint hasChar (c : ascii) (s : string) : bool :=
  match s with
  | EmptyString => false
  | String c' rest => Ascii.eqb c' c || hasChar c rest
  end.

(** The index expression [l[i]] with an [int] index: out of range
    ([None]) below zero and from the length on. *)
Definition indexAt {A : Type} (l : list A) (i : Z) : option A :=
  if (i <? 0)%Z then None else nth_error l (Z.to_nat i).

Section Builder.
Context `{Manager} `{Externals}.

Definition parseDiscordWebhookUrl (urlEnv : string)
    : Outcome (option WebhookClient) :=
  let webhookUrl := Getenv urlEnv in
  if (0 <? String.length webhookUrl)%nat then
    match urlParse webhookUrl with
    | inr err => Errored err
    | inl path =>
      let urlParts := splitOn "/"%char path in
      match indexAt urlParts (Z.of_nat (List.length urlParts) - 2) with
      | None => IndexOutOfRange
      | Some idPart =>
        match snowflakeParse idPart with
        | inr err => Errored err
        | inl id =>
          match indexAt urlParts (Z.of_nat (List.length urlParts) - 1) with
          | None => IndexOutOfRange
          | Some token =>
            Returned (Some {| webhookId := id; webhookToken := token |})
          end
        end
      end
    end
  else Returned None.

Definition NewJobNotifs (db : Database) (cache : Cache)
    : Outcome (JobNotifs * Webhooks) :=
  andThenOutcome (parseDiscordWebhookUrl "DISCORD_DEPLOYMENTS_WEBHOOK") (fun d =>
  andThenOutcome (parseDiscordWebhookUrl "DISCORD_COMMUNITY_NODES_WEBHOOK") (fun c =>
  andThenOutcome (parseDiscordWebhookUrl "DISCORD_TEST_WEBHOOK") (fun t =>
  Returned ({| Notifs.db := db; Notifs.cache := cache;
               Notifs.env := Getenv "ENV" |},
            {| deploymentsWebhook := d; communityWebhook := c;
               testWebhook := t |})))).

Definition sendNotif (title : string) (fields : list EmbedField)
    (color : DiscordColor) (channel : WebhookClient) : list Output :=
  let messageEmbed :=
    {| Title := title; Kind := EmbedTypeRich; Fields := fields; Color := color |} in
  let msg := {| Embeds := [messageEmbed]; Username := ServiceName |} in
  OutCreateMessage channel msg DiscordPacing ::
  match CreateMessage channel msg with
  | Some err => [OutLogSendError err title fields color]
  | None => []
  end.

Definition getNotifChannels (n : JobNotifs) (hooks : Webhooks)
    (jobState : JobState) : list (option WebhookClient) :=
  let webhooks := [] in
  let webhooks :=
    if decide (Type_ jobState = JobType_Deploy) then
      let webhooks := (webhooks ++ [deploymentsWebhook hooks])%list in
      (* Don't send Dev/QA notifications to the community channel. *)
      if negb (String.eqb (Notifs.env n) EnvType_Dev)
         && negb (String.eqb (Notifs.env n) EnvType_Qa)
      then (webhooks ++ [communityWebhook hooks])%list
      else webhooks
    else webhooks in
  (* Send all notifications to the test webhook. *)
  (webhooks ++ [testWebhook hooks])%list.

(** The prefix of the title of a deploy job; the type assertion on the
    component panics ([None]) on a missing or ill-typed parameter. *)
Definition jobTitlePfx (n : JobNotifs) (jobState : JobState) : option string :=
  if decide (Type_ jobState = JobType_Deploy) then
    match assertString (Params jobState !! JobParam_Component) with
    | None => None
    | Some component =>
      Some ("3Box Labs `" +:+ EnvName (Notifs.env n) +:+ "` " +:+
            ToUpper component +:+ " ")
    end
  else Some "".

(** The name of the job in a title; the assertion
    [Params[JobParam_Manual].(bool)] is of the two-result form and does
    not panic. *)
Definition titleJobName (jobState : JobState) : string :=
  let jobName := JobName (Type_ jobState) in
  match Params jobState !! JobParam_Manual with
  | Some (VBool true) => JobParam_Manual +:+ " " +:+ jobName
  | _ => jobName
  end.

Definition getNotifTitle (n : JobNotifs) (jobState : JobState) : option string :=
  match jobTitlePfx n jobState with
  | None => None
  | Some pfx =>
    Some (pfx +:+ titleJobName jobState +:+ " " +:+
          ToUpper (JobStageString (Stage jobState)))
  end.

Definition getNotifColor (jobState : JobState) : DiscordColor * list Output :=
  match Stage jobState with
  | JobStage_Queued => (DiscordColor_Info, [])
  | JobStage_Skipped => (DiscordColor_Warning, [])
  | JobStage_Started => (DiscordColor_None, [])
  | JobStage_Waiting => (DiscordColor_Info, [])
  | JobStage_Delayed => (DiscordColor_Warning, [])
  | JobStage_Failed => (DiscordColor_Alert, [])
  | JobStage_Canceled => (DiscordColor_Warning, [])
  | JobStage_Completed => (DiscordColor_Ok, [])
  | _ =>
    (DiscordColor_Alert,
     [OutLog ("sendNotif: unknown job stage: " +:+ PrintJob jobState)])
  end.

(** The body of the inner loop of [NotifyJob]: a nil channel is skipped;
    for another the arguments of [sendNotif] are evaluated from left to
    right, then the message is sent. *)
Definition notifyChannel (n : JobNotifs) (jobState : JobState)
    (channel : option WebhookClient) : M (list Output) :=
  match channel with
  | None => ret []
  | Some c =>
    let* title := orPanic InterfaceConversion (getNotifTitle n jobState) in
    let* fields := getNotifFields n jobState in
    let '(color, logged) := getNotifColor jobState in
    ret (logged ++ sendNotif title fields color c)%list
  end.

(** A [for ... range] loop whose body has outputs. *)
Fixpoint forEach {A : Type} (body : A -> M (list Output)) (l : list A)
    : M (list Output) :=
  match l with
  | [] => ret []
  | a :: rest =>
    let* first := body a in
    let* others := forEach body rest in
    ret (first ++ others)%list
  end.

Definition NotifyJob (n : JobNotifs) (hooks : Webhooks) (jobs : list JobState)
    : M (list Output) :=
  forEach
    (fun jobState =>
       forEach (notifyChannel n jobState) (getNotifChannels n hooks jobState))
    jobs.

(** The text [getComponentMsg] builds when the slice is in range. *)
Definition componentMsg (component : string) (sha : string) : string :=
  let repo := ComponentRepo component in
  "[" +:+ repo +:+ " (" +:+ substring 0 12 sha +:+ ")](https://github.com/" +:+
  GitHubOrg +:+ "/" +:+ repo +:+ "/commit/" +:+ sha +:+ ")".

(** The text [getDeployHashes] builds from a mapping when no slice is
    out of range: the three component messages, one per line. *)
Definition deployMessage (commitHashes : GoMap string) : string :=
  componentMsg DeployComponent_Ceramic (hashOf commitHashes DeployComponent_Ceramic)
  +:+ newline +:+
  componentMsg DeployComponent_Cas (hashOf commitHashes DeployComponent_Cas)
  +:+ newline +:+
  componentMsg DeployComponent_Ipfs (hashOf commitHashes DeployComponent_Ipfs).

(** Whether the hash of each of the three components has the twelve
    bytes its message shows. *)
Definition hashesLongEnough (commitHashes : GoMap string) : bool :=
  forallb (fun component =>
             (12 <=? String.length (hashOf commitHashes component))%nat)
    [DeployComponent_Ceramic; DeployComponent_Cas; DeployComponent_Ipfs].

(** The fields [getNotifFields] builds itself: the job id, the commit
    hashes and the time. *)
Definition jobIdField (jobState : JobState) : EmbedField :=
  {| Name := NotifField_JobId; Value := Id jobState |}.

Definition timeField (now : Time) : EmbedField :=
  {| Name := NotifField_Time; Value := FormatRFC1123 now |}.

Definition commitHashesField (text : string) : EmbedField :=
  {| Name := NotifField_CommitHashes; Value := text |}.

(** The webhooks a message goes to, in the order of sending. *)
Definition sentTo (outs : list Output) : list WebhookClient :=
  flat_map (fun o => match o with
                     | OutCreateMessage c _ _ => [c]
                     | _ => []
                     end) outs.

(** The channels of a list that are not nil. *)
Definition configured (channels : list (option WebhookClient))
    : list WebhookClient :=
  flat_map (fun c => match c with Some x => [x] | None => [] end) channels.

End Builder.
End Discord.

(** ** More sample inputs *)

Module DiscordSamples.
Import Notifs Discord Samples.

(** A world whose clock stands still at [t]. *)
Definition frozenAt (t : Time) : World :=
  {| clock := fun _ => t; reads := 0; trace := [] |}.

(** A smoke-test job whose [Params] are empty. *)
Definition bareJob (st : JobStage) (dep : Deployment) : Jobs.smokeTestJob :=
  {| Jobs.state := {| Stage := st; Ts := 0; Id := "job-1";
                      Type_ := JobType_TestSmoke; Params := ∅ |};
     Jobs.env := "qa";
     Jobs.d := dep |}.

(** A smoke-test job whose [Params] are nil. *)
Definition nilJob (st : JobStage) (dep : Deployment) : Jobs.smokeTestJob :=
  {| Jobs.state := {| Stage := st; Ts := 0; Id := "job-1";
                      Type_ := JobType_TestSmoke; Params := NilMap |};
     Jobs.env := "qa";
     Jobs.d := dep |}.

Definition upperAscii (c : ascii) : ascii :=
  let n := nat_of_ascii c in
  if ((97 <=? n) && (n <=? 122))%nat then ascii_of_nat (n - 32) else c.

Fixpoint upper (s : string) : string :=
  match s with
  | EmptyString => EmptyString
  | String c rest => String (upperAscii c) (upper rest)
  end.

Definition testUrl : string := "https://discord.com/api/webhooks/42/secret".
Definition bareUrl : string := "https://discord.com".

(** One possible choice for the parameters of the notifier: the test
    webhook is set to a well-formed URL, the deployments webhook to a URL
    without a path, the community webhook is unset. *)
Definition externals : Externals := {|
  Getenv := fun v =>
    if String.eqb v "DISCORD_TEST_WEBHOOK" then testUrl
    else if String.eqb v "DISCORD_DEPLOYMENTS_WEBHOOK" then bareUrl
    else if String.eqb v "ENV" then "qa"
    else "";
  urlParse := fun u =>
    if String.eqb u testUrl then inl "/api/webhooks/42/secret"
    else if String.eqb u bareUrl then inl ""
    else inr (errorString "parse error");
  snowflakeParse := fun s =>
    if String.eqb s "42" then inl 42 else inr (errorString "invalid snowflake");
  ToUpper := upper;
  EnvType_Dev := "dev";
  EnvType_Qa := "qa";
  EnvName := fun e => e;
  JobName := fun jt =>
    match jt with
    | JobType_Deploy => "Deployment"
    | JobType_Anchor => "Anchor Worker"
    | JobType_TestE2E => "E2E Tests"
    | JobType_TestSmoke => "Smoke Tests"
    | JobType_Other name => name
    end;
  JobParam_Manual := "manual";
  ServiceName := "cd-manager";
  CreateMessage := fun _ _ => Some (errorString "rate limited")
|}.

(** An environment in which no variable is set. *)
Definition unset : Externals := {|
  Getenv := fun _ => "";
  urlParse := fun _ => inr (errorString "parse error");
  snowflakeParse := fun _ => inr (errorString "invalid snowflake");
  ToUpper := upper;
  EnvType_Dev := "dev";
  EnvType_Qa := "qa";
  EnvName := fun e => e;
  JobName := fun _ => "job";
  JobParam_Manual := "manual";
  ServiceName := "cd-manager";
  CreateMessage := fun _ _ => None
|}.

Definition testClient : WebhookClient :=
  {| webhookId := 42; webhookToken := "secret" |}.

Definition deployClient : WebhookClient :=
  {| webhookId := 7; webhookToken := "deploys" |}.

Definition testOnly : Webhooks :=
  {| deploymentsWebhook := None; communityWebhook := None;
     testWebhook := Some testClient |}.

Definition deployOnly : Webhooks :=
  {| deploymentsWebhook := Some deployClient; communityWebhook := None;
     testWebhook := None |}.

(** A database whose mapping has all three hashes. *)
Definition fullHashes : GoMap string :=
  {[ "ceramic" := "0123456789abcdef0123456789abcdef01234567";
     "cas" := "89abcdef0123456789abcdef0123456789abcdef";
     "ipfs" := "fedcba9876543210fedcba9876543210fedcba98" ]}.

(** A database that answers with an error. *)
Definition failingDb : JobNotifs :=
  {| db := {| GetDeployHashes := (∅, Some (errorString "storage down")) |};
     cache := registry;
     Notifs.env := "qa" |}.

(** A deployment of the component [cas], with and without a hash the
    sample pattern accepts. *)
Definition deployJob (sha : string) : JobState :=
  {| Stage := JobStage_Queued; Ts := 5; Id := "job-9"; Type_ := JobType_Deploy;
     Params := {[ "component" := VString "cas"; "sha" := VString sha ]} |}.

End DiscordSamples.

(** ** Go maps *)

Module GoMapFacts.

Lemma lookup_assigned {V : Type} (m : GoMap V) (k : string) (v : V) :
  <[ k := v ]> m !! k = Some v.
Proof.
  unfold lookup, insert, GoMap_lookup, GoMap_insert; simpl.
  apply fin_maps.lookup_insert_eq.
Qed.

Lemma lookup_other {V : Type} (m : GoMap V) (k k' : string) (v : V) :
  k <> k' -> <[ k := v ]> m !! k' = m !! k'.
Proof.
  intros Hne. unfold lookup, insert, GoMap_lookup, GoMap_insert; simpl.
  by apply fin_maps.lookup_insert_ne.
Qed.

Lemma lookup_nil {V : Type} (k : string) : (NilMap : GoMap V) !! k = None.
Proof.
  unfold lookup, GoMap_lookup; simpl. apply fin_maps.lookup_empty.
Qed.

Lemma assign_nil {V : Type} (m : GoMap V) (k : string) (v : V) :
  assign m k v = None <-> m = NilMap.
Proof. by destruct m. Qed.

End GoMapFacts.

(** ** The smoke-test job *)

Module SmokeSpec.
Import Jobs.
Section Facts.
Context `{Manager}.

Lemma after_after n m evs evs' w :
  after n evs (after m evs' w) = after (n + m) (evs' ++ evs)%list w.
Proof.
  unfold after; simpl. f_equal; [lia | by rewrite app_assoc].
Qed.

Lemma advance_run js stage ts e w :
  advance js stage ts e w =
  Ok (nextState js stage ts e, e)
     (after 0 [EvSaveJob (nextState js stage ts e);
               EvNotifyJob (nextState js stage ts e)] w).
Proof.
  unfold advance, bind, emit, ret, after; simpl.
  by rewrite <- app_assoc.
Qed.

Lemma Now_run w : Now w = Ok (clock w (reads w)) (after 1 [] w).
Proof.
  unfold Now, after; simpl. by rewrite app_nil_r.
Qed.

Lemma checkTests_run s running tid w :
  Params (state s) !! JobParam_Id = Some (VString tid) ->
  checkTests s running w =
  match CheckTask (d s) ClusterName "" running false tid with
  | (_, Some e) =>
    Ok (false, Some e) (after 0 [EvCheckTask ClusterName "" running false tid] w)
  | (true, None) =>
    Ok (true, None) (after 0 [EvCheckTask ClusterName "" running false tid] w)
  | (false, None) =>
    Ok (false,
        if IsTimedOutAt (clock w (reads w)) (state s) (pollTimeout running)
        then Some (pollError running) else None)
       (after 1 [EvCheckTask ClusterName "" running false tid] w)
  end.
Proof.
  intros Hid. unfold checkTests, bind at 1. rewrite Hid; simpl.
  unfold callCheckTask, bind, emit, ret; simpl.
  destruct (CheckTask (d s) ClusterName "" running false tid) as [[|] [e|]];
    try reflexivity.
  unfold pollTimeout, pollError, IsTimedOut, bind, ret, Now.
  destruct running; simpl;
    destruct (IsTimedOutAt _ _ _); reflexivity.
Qed.

Lemma Advance_Queued s w :
  Stage (state s) = JobStage_Queued ->
  Advance s w =
  advance (state s) JobStage_Dequeued (Ts (state s)) None (after 1 [] w).
Proof.
  intros Hst. unfold Advance, bind. rewrite Now_run, Hst. reflexivity.
Qed.

Lemma Advance_Dequeued s w :
  Stage (state s) = JobStage_Dequeued ->
  Advance s w =
  match LaunchTask (d s) ClusterName (FamilyPrefix +:+ env s) ContainerName
          NetworkConfigurationParameter None with
  | (_, Some e) =>
    advance (state s) JobStage_Failed (clock w (reads w)) (Some e)
      (after 1 [launchEvent s] w)
  | (id, None) =>
    match Params (state s) with
    | NilMap => Panicked AssignmentToNilMap
    | Allocated _ =>
      advance (launched (state s) id (clock w (S (reads w)))) JobStage_Started
        (clock w (reads w)) None (after 2 [launchEvent s] w)
    end
  end.
Proof.
  intros Hst. unfold Advance, bind at 1, Now at 1. rewrite Hst.
  unfold callLaunchTask, bind, emit, ret, Now, launchEvent, after, launched,
    setParam; simpl.
  destruct (LaunchTask _ _ _ _ _ _) as [id [e|]]; [reflexivity|].
  destruct (Params (state s)); reflexivity.
Qed.

Lemma Advance_polling s running next tid w :
  (running = true /\ Stage (state s) = JobStage_Started /\ next = JobStage_Waiting) \/
  (running = false /\ Stage (state s) = JobStage_Waiting /\ next = JobStage_Completed) ->
  Params (state s) !! JobParam_Id = Some (VString tid) ->
  Advance s w =
  match CheckTask (d s) ClusterName "" running false tid with
  | (_, Some e) =>
    advance (state s) JobStage_Failed (clock w (reads w)) (Some e)
      (after 1 [EvCheckTask ClusterName "" running false tid] w)
  | (true, None) =>
    advance (state s) next (clock w (reads w)) None
      (after 1 [EvCheckTask ClusterName "" running false tid] w)
  | (false, None) =>
    if IsTimedOutAt (clock w (S (reads w))) (state s) (pollTimeout running)
    then advance (state s) JobStage_Failed (clock w (reads w))
           (Some (pollError running))
           (after 2 [EvCheckTask ClusterName "" running false tid] w)
    else Ok (state s, None)
           (after 2 [EvCheckTask ClusterName "" running false tid] w)
  end.
Proof.
  intros Hcase Hid. unfold Advance, bind at 1. rewrite Now_run.
  destruct Hcase as [(-> & -> & ->) | (-> & -> & ->)];
    unfold bind; rewrite (checkTests_run _ _ tid) by exact Hid;
    destruct (CheckTask _ _ _ _ _ _) as [[|] [e|]];
    rewrite ?after_after; simpl; try reflexivity;
    destruct (IsTimedOutAt _ _ _); reflexivity.
Qed.

Lemma Advance_other s w :
  Stage (state s) <> JobStage_Queued ->
  Stage (state s) <> JobStage_Dequeued ->
  Stage (state s) <> JobStage_Started ->
  Stage (state s) <> JobStage_Waiting ->
  Advance s w =
  advance (state s) JobStage_Failed (clock w (reads w))
    (Some (unexpectedState (state s))) (after 1 [] w).
Proof.
  intros. unfold Advance, bind. rewrite Now_run.
  destruct (Stage (state s)); done.
Qed.

Lemma checkTests_panics s running w :
  (forall tid, Params (state s) !! JobParam_Id <> Some (VString tid)) ->
  checkTests s running w = Panicked InterfaceConversion.
Proof.
  intros Hid. unfold checkTests, bind.
  destruct (Params (state s) !! JobParam_Id) as [[tid| | |]|]; try reflexivity.
  by destruct (Hid tid).
Qed.

Lemma IsTimedOutAt_gt now js threshold :
  IsTimedOutAt now js threshold = true <-> now - Ts js > threshold.
Proof.
  unfold IsTimedOutAt. rewrite Z.gtb_ltb, Z.ltb_lt. lia.
Qed.

Lemma IsTimedOutAt_le now js threshold :
  IsTimedOutAt now js threshold = false <-> now - Ts js <= threshold.
Proof.
  unfold IsTimedOutAt. rewrite Z.gtb_ltb, Z.ltb_ge. lia.
Qed.

(** C1 (as amended): in a terminal stage [Advance] takes its defensive
    branch. It returns a state in stage [Failed] whose [Ts] is the
    invocation time and whose [Params] record an unexpected-state error,
    the rest of the state being copied; so after any positive number of
    repeated calls the stage is [Failed]. *)
Theorem Advance_terminal_defensive s w :
  terminal (Stage (state s)) = true ->
  (exists e w',
     Advance s w =
     Ok (nextState (state s) JobStage_Failed (clock w (reads w))
           (Some (unexpectedState (state s))), e) w') /\
  (forall n, (0 < n)%nat ->
     resultStage (AdvanceTimes n s w) = Some JobStage_Failed).
Proof.
  assert (Hone : forall s' w', terminal (Stage (state s')) = true ->
            Advance s' w' =
            Ok (nextState (state s') JobStage_Failed (clock w' (reads w'))
                  (Some (unexpectedState (state s'))),
                Some (unexpectedState (state s')))
               (after 0 [EvSaveJob (nextState (state s') JobStage_Failed
                                      (clock w' (reads w'))
                                      (Some (unexpectedState (state s'))));
                         EvNotifyJob (nextState (state s') JobStage_Failed
                                        (clock w' (reads w'))
                                        (Some (unexpectedState (state s'))))]
                  (after 1 [] w'))).
  { intros s' w' Ht.
    rewrite Advance_other by (intros Hst; rewrite Hst in Ht; discriminate).
    apply advance_run. }
  intros Ht. split.
  - eexists _, _. apply Hone, Ht.
  - intros n Hn. destruct n as [|n]; [lia|]. clear Hn.
    revert s w Ht. induction n as [|n IH]; intros s w Ht.
    + simpl. rewrite Hone by exact Ht. reflexivity.
    + change (AdvanceTimes (S (S n)) s w)
        with (bind (Advance s)
                (fun x => match x with
                          | (js, _) =>
                            AdvanceTimes (S n)
                              {| state := js; env := env s; d := d s |}
                          end) w).
      unfold bind. rewrite Hone by exact Ht. apply IH. reflexivity.
Qed.

(** C2: a job in stage [Started] whose task is reported not yet running,
    or in stage [Waiting] whose task is reported still running, the
    backend answering without error and the time waited since [Ts] not
    above the timeout of the stage, gets from [Advance] its own state
    back, unchanged, with a nil error; nothing is saved or notified. *)
Theorem Advance_not_ready_unchanged s tid w :
  Params (state s) !! JobParam_Id = Some (VString tid) ->
  (Stage (state s) = JobStage_Started /\
   CheckTask (d s) ClusterName "" true false tid = (false, None) /\
   elapsed s w <= DefaultWaitTime) \/
  (Stage (state s) = JobStage_Waiting /\
   CheckTask (d s) ClusterName "" false false tid = (false, None) /\
   elapsed s w <= smokeTestFailureTime) ->
  exists running,
    Advance s w =
    Ok (state s, None)
       (after 2 [EvCheckTask ClusterName "" running false tid] w).
Proof.
  intros Hid [(Hst & Hck & Hle) | (Hst & Hck & Hle)].
  - exists true.
    rewrite (Advance_polling s true JobStage_Waiting tid) by tauto.
    rewrite Hck.
    apply IsTimedOutAt_le in Hle. simpl. by rewrite Hle.
  - exists false.
    rewrite (Advance_polling s false JobStage_Completed tid) by tauto.
    rewrite Hck.
    apply IsTimedOutAt_le in Hle. simpl. by rewrite Hle.
Qed.

(** C3: with the backend answering without error that the task is not
    yet running (stage [Started]) or still running (stage [Waiting]), and
    the time since the [Ts] of the current state above the startup
    timeout (resp. the completion timeout of 15 minutes), [Advance] moves
    the job to [Failed] and records the sentinel [Error_StartupTimeout]
    (resp. [Error_CompletionTimeout]), which no backend call produced. *)
Theorem Advance_timeout_fails s tid w :
  Params (state s) !! JobParam_Id = Some (VString tid) ->
  smokeTestFailureTime = 15 * 60 * 1000000000 /\
  (Stage (state s) = JobStage_Started ->
   CheckTask (d s) ClusterName "" true false tid = (false, None) ->
   elapsed s w > DefaultWaitTime ->
   exists js e w',
     Advance s w = Ok (js, e) w' /\
     Stage js = JobStage_Failed /\
     Params js !! JobParam_Error = Some (VError Error_StartupTimeout)) /\
  (Stage (state s) = JobStage_Waiting ->
   CheckTask (d s) ClusterName "" false false tid = (false, None) ->
   elapsed s w > smokeTestFailureTime ->
   exists js e w',
     Advance s w = Ok (js, e) w' /\
     Stage js = JobStage_Failed /\
     Params js !! JobParam_Error = Some (VError Error_CompletionTimeout)).
Proof.
  intros Hid. split; [reflexivity|]. split; intros Hst Hck Hgt.
  - rewrite (Advance_polling s true JobStage_Waiting tid) by tauto.
    rewrite Hck. apply IsTimedOutAt_gt in Hgt. simpl. rewrite Hgt.
    rewrite advance_run. eexists _, _, _. split; [reflexivity|].
    split; [reflexivity|]. simpl. apply lookup_insert_eq.
  - rewrite (Advance_polling s false JobStage_Completed tid) by tauto.
    rewrite Hck. apply IsTimedOutAt_gt in Hgt. simpl. rewrite Hgt.
    rewrite advance_run. eexists _, _, _. split; [reflexivity|].
    split; [reflexivity|]. simpl. apply lookup_insert_eq.
Qed.

(** C4: from [Queued], [Advance] moves the job to [Dequeued] and the new
    state keeps the [Ts] of the old one, whatever the invocation time; and
    from every other stage, a run that returns a state other than the one
    it was given (a transition) has set [Ts] to the invocation time. *)
Theorem Advance_queued_keeps_Ts s w :
  (Stage (state s) = JobStage_Queued ->
   exists e w',
     Advance s w =
     Ok ({| Stage := JobStage_Dequeued; Ts := Ts (state s); Id := Id (state s);
            Type_ := Type_ (state s); Params := Params (state s) |}, e) w') /\
  (Stage (state s) <> JobStage_Queued ->
   forall js e w',
     Advance s w = Ok (js, e) w' ->
     js = state s \/ Ts js = clock w (reads w)).
Proof.
  split.
  - intros Hst. rewrite Advance_Queued by exact Hst. rewrite advance_run.
    eexists _, _. reflexivity.
  - intros Hst js e w' Hrun.
    destruct (Stage (state s)) eqn:Hstage; try done.
    + rewrite Advance_Dequeued in Hrun by exact Hstage.
      destruct (LaunchTask _ _ _ _ _ _) as [id [err|]];
        [|destruct (Params (state s)); [discriminate|]];
        rewrite advance_run in Hrun; inversion Hrun; by right.
    + destruct (Params (state s) !! JobParam_Id) as [[tid| | |]|] eqn:Hid.
      2-5: unfold Advance, bind, Now in Hrun; rewrite Hstage in Hrun;
           rewrite checkTests_panics in Hrun
             by (intros tid; rewrite Hid; discriminate);
           discriminate.
      rewrite (Advance_polling s true JobStage_Waiting tid) in Hrun by tauto.
      destruct (CheckTask _ _ _ _ _ _) as [[|] [err|]];
        [| | |destruct (IsTimedOutAt _ _ _)];
        rewrite ?advance_run in Hrun; inversion Hrun; auto.
    + destruct (Params (state s) !! JobParam_Id) as [[tid| | |]|] eqn:Hid.
      2-5: unfold Advance, bind, Now in Hrun; rewrite Hstage in Hrun;
           rewrite checkTests_panics in Hrun
             by (intros tid; rewrite Hid; discriminate);
           discriminate.
      rewrite (Advance_polling s false JobStage_Completed tid) in Hrun by tauto.
      destruct (CheckTask _ _ _ _ _ _) as [[|] [err|]];
        [| | |destruct (IsTimedOutAt _ _ _)];
        rewrite ?advance_run in Hrun; inversion Hrun; auto.
    + rewrite Advance_other in Hrun by (rewrite Hstage; discriminate).
      rewrite advance_run in Hrun. inversion Hrun; by right.
    + rewrite Advance_other in Hrun by (rewrite Hstage; discriminate).
      rewrite advance_run in Hrun. inversion Hrun; by right.
    + rewrite Advance_other in Hrun by (rewrite Hstage; discriminate).
      rewrite advance_run in Hrun. inversion Hrun; by right.
    + rewrite Advance_other in Hrun by (rewrite Hstage; discriminate).
      rewrite advance_run in Hrun. inversion Hrun; by right.
    + rewrite Advance_other in Hrun by (rewrite Hstage; discriminate).
      rewrite advance_run in Hrun. inversion Hrun; by right.
Qed.

(** C5: when the one backend call of the stage ([LaunchTask] in
    [Dequeued], [CheckTask] in [Started] and [Waiting]) answers with an
    error, [Advance] moves the job to [Failed] at once, records that very
    error, and has called the backend exactly once. *)
Theorem Advance_external_error_fails s w err :
  (Stage (state s) = JobStage_Dequeued /\
   snd (LaunchTask (d s) ClusterName (FamilyPrefix +:+ env s) ContainerName
          NetworkConfigurationParameter None) = Some err) \/
  (exists tid,
     Params (state s) !! JobParam_Id = Some (VString tid) /\
     ((Stage (state s) = JobStage_Started /\
       snd (CheckTask (d s) ClusterName "" true false tid) = Some err) \/
      (Stage (state s) = JobStage_Waiting /\
       snd (CheckTask (d s) ClusterName "" false false tid) = Some err))) ->
  exists js e evs,
    Advance s w = Ok (js, e) (after 1 evs w) /\
    Stage js = JobStage_Failed /\
    Ts js = clock w (reads w) /\
    Params js !! JobParam_Error = Some (VError err) /\
    List.length (backendCalls evs) = 1%nat.
Proof.
  intros [(Hst & Herr) | (tid & Hid & [(Hst & Herr) | (Hst & Herr)])].
  - rewrite Advance_Dequeued by exact Hst.
    destruct (LaunchTask _ _ _ _ _ _) as [id [e0|]]; simpl in Herr;
      [|discriminate].
    injection Herr as ->. rewrite advance_run, after_after.
    eexists _, _, _. split; [reflexivity|]. simpl.
    repeat split. apply lookup_insert_eq.
  - rewrite (Advance_polling s true JobStage_Waiting tid) by tauto.
    destruct (CheckTask _ _ _ _ _ _) as [[|] [e0|]]; simpl in Herr;
      try discriminate;
      injection Herr as ->; rewrite advance_run, after_after;
      (eexists _, _, _; split; [reflexivity|]; simpl;
       repeat split; apply lookup_insert_eq).
  - rewrite (Advance_polling s false JobStage_Completed tid) by tauto.
    destruct (CheckTask _ _ _ _ _ _) as [[|] [e0|]]; simpl in Herr;
      try discriminate;
      injection Herr as ->; rewrite advance_run, after_after;
      (eexists _, _, _; split; [reflexivity|]; simpl;
       repeat split; apply lookup_insert_eq).
Qed.

(** C6 (as amended): from [Dequeued], with [Params] an allocated map,
    when [LaunchTask] succeeds with a task identifier, [Advance] moves the
    job to [Started] with [Ts] the invocation time, and [Params] hold the
    task identifier and the start time of the subtask (the clock reading
    taken right after the launch, in nanoseconds). *)
Theorem Advance_dequeued_launches s w id :
  JobParam_Id <> JobParam_Start ->
  Params (state s) <> NilMap ->
  Stage (state s) = JobStage_Dequeued ->
  LaunchTask (d s) ClusterName (FamilyPrefix +:+ env s) ContainerName
    NetworkConfigurationParameter None = (id, None) ->
  exists js e w',
    Advance s w = Ok (js, e) w' /\
    Stage js = JobStage_Started /\
    Ts js = clock w (reads w) /\
    Params js !! JobParam_Id = Some (VString id) /\
    Params js !! JobParam_Start =
      Some (VInt64 (UnixNano (clock w (S (reads w))))).
Proof.
  intros Hne Halloc Hst Hlaunch. rewrite Advance_Dequeued by exact Hst.
  rewrite Hlaunch. destruct (Params (state s)) as [|entries] eqn:Hparams;
    [done|].
  rewrite advance_run.
  eexists _, _, _. split; [reflexivity|]. simpl. repeat split.
  - rewrite GoMapFacts.lookup_other by congruence.
    apply GoMapFacts.lookup_assigned.
  - apply GoMapFacts.lookup_assigned.
Qed.

(** C7: from [Waiting], when [CheckTask] reports without error that the
    task has stopped, [Advance] moves the job to [Completed]. *)
Theorem Advance_waiting_completes s w tid :
  Params (state s) !! JobParam_Id = Some (VString tid) ->
  Stage (state s) = JobStage_Waiting ->
  CheckTask (d s) ClusterName "" false false tid = (true, None) ->
  exists js e w',
    Advance s w = Ok (js, e) w' /\
    Stage js = JobStage_Completed /\
    Ts js = clock w (reads w) /\
    Params js = Params (state s).
Proof.
  intros Hid Hst Hck.
  rewrite (Advance_polling s false JobStage_Completed tid) by tauto.
  rewrite Hck, advance_run. eexists _, _, _. repeat split.
Qed.

(** C8 (as amended): [IsTimedOut] is the predicate
    [(now - state.Ts) > threshold] at the reading of the clock it takes,
    and it leaves no trace; it is monotone, true for every smaller
    threshold once true for one; and for a threshold that is not negative
    it is false whenever the elapsed time is negative. *)
Theorem IsTimedOut_policy js threshold w :
  IsTimedOut js threshold w =
    Ok (IsTimedOutAt (clock w (reads w)) js threshold) (after 1 [] w) /\
  (forall now,
     (IsTimedOutAt now js threshold = true <-> now - Ts js > threshold) /\
     (forall threshold',
        IsTimedOutAt now js threshold = true -> threshold' < threshold ->
        IsTimedOutAt now js threshold' = true) /\
     (0 <= threshold -> now - Ts js < 0 ->
      IsTimedOutAt now js threshold = false)).
Proof.
  split.
  - unfold IsTimedOut, bind, ret. by rewrite Now_run.
  - intros now. split; [apply IsTimedOutAt_gt|]. split.
    + intros threshold'. rewrite !IsTimedOutAt_gt. lia.
    + rewrite IsTimedOutAt_le. lia.
Qed.

End Facts.

Import Samples.

(** C1, as stated, fails: a [Completed] job comes back [Failed]. *)
Lemma Advance_completed_becomes_failed :
  let s := smokeJob JobStage_Completed 0 pending in
  terminal (Stage (state s)) = true /\
  resultStage (@Advance manager s (worldAt 1000)) = Some JobStage_Failed /\
  resultStage (@Advance manager s (worldAt 1000)) <> Some (Stage (state s)).
Proof.
  simpl. split; [reflexivity|].
  split; [vm_compute; reflexivity | vm_compute; discriminate].
Qed.

Lemma Advance_terminal_defensive_witness :
  let s := smokeJob JobStage_Canceled 0 pending in
  let w := worldAt 1000 in
  terminal (Stage (state s)) = true /\
  ((exists e w',
      @Advance manager s w =
      Ok (@nextState manager (state s) JobStage_Failed (clock w (reads w))
            (Some (@unexpectedState manager (state s))), e) w') /\
   (forall n, (0 < n)%nat ->
      resultStage (@AdvanceTimes manager n s w) = Some JobStage_Failed)).
Proof.
  intros s w. split; [reflexivity|].
  apply (@Advance_terminal_defensive manager s w). reflexivity.
Defined.

Lemma Advance_not_ready_unchanged_witness :
  let s := smokeJob JobStage_Started 0 pending in
  let w := worldAt 1000 in
  elapsed s w <= @DefaultWaitTime manager /\
  exists running,
    @Advance manager s w =
    Ok (state s, None)
       (after 2 [EvCheckTask ClusterName "" running false "task-123"] w).
Proof.
  intros s w. split; [vm_compute; discriminate|].
  apply (@Advance_not_ready_unchanged manager s "task-123" w).
  - reflexivity.
  - left. split; [reflexivity|]. split; [reflexivity|].
    vm_compute; discriminate.
Defined.

Lemma Advance_timeout_fails_witness :
  let s := smokeJob JobStage_Started 0 pending in
  let w := worldAt (10 * Minute) in
  elapsed s w > @DefaultWaitTime manager /\
  exists js e w',
    @Advance manager s w = Ok (js, e) w' /\
    Stage js = JobStage_Failed /\
    Params js !! @JobParam_Error manager = Some (VError Error_StartupTimeout).
Proof.
  intros s w. split; [vm_compute; reflexivity|].
  apply (proj1 (proj2 (@Advance_timeout_fails manager s "task-123" w
                         ltac:(reflexivity)))).
  - reflexivity.
  - reflexivity.
  - vm_compute; reflexivity.
Defined.

Lemma Advance_queued_keeps_Ts_witness :
  let s := smokeJob JobStage_Queued 42 pending in
  let w := worldAt 1000 in
  Stage (state s) = JobStage_Queued /\
  exists e w',
    @Advance manager s w =
    Ok ({| Stage := JobStage_Dequeued; Ts := 42; Id := Id (state s);
           Type_ := Type_ (state s); Params := Params (state s) |}, e) w'.
Proof.
  intros s w. split; [reflexivity|].
  apply (proj1 (@Advance_queued_keeps_Ts manager s w)). reflexivity.
Defined.

Lemma Advance_external_error_fails_witness :
  let s := smokeJob JobStage_Dequeued 0 broken in
  let w := worldAt 1000 in
  exists js e evs,
    @Advance manager s w = Ok (js, e) (after 1 evs w) /\
    Stage js = JobStage_Failed /\
    Ts js = clock w (reads w) /\
    Params js !! @JobParam_Error manager
      = Some (VError (errorString "launch refused")) /\
    List.length (backendCalls evs) = 1%nat.
Proof.
  intros s w.
  apply (@Advance_external_error_fails manager s w (errorString "launch refused")).
  left. split; reflexivity.
Defined.

Lemma Advance_dequeued_launches_witness :
  let s := smokeJob JobStage_Dequeued 0 pending in
  let w := worldAt 1000 in
  exists js e w',
    @Advance manager s w = Ok (js, e) w' /\
    Stage js = JobStage_Started /\
    Ts js = 1000 /\
    Params js !! "id" = Some (VString "task-123") /\
    Params js !! "start" = Some (VInt64 1000001000).
Proof.
  intros s w.
  apply (@Advance_dequeued_launches manager s w "task-123").
  - discriminate.
  - discriminate.
  - reflexivity.
  - reflexivity.
Defined.

(** C6, as stated, fails: on a [Dequeued] job whose [Params] are nil the
    launch succeeds and recording the task identifier panics. *)
Lemma Advance_dequeued_nil_params_panics :
  let s := DiscordSamples.nilJob JobStage_Dequeued pending in
  Stage (state s) = JobStage_Dequeued /\
  LaunchTask (d s) ClusterName (FamilyPrefix +:+ env s) ContainerName
    NetworkConfigurationParameter None = ("task-123", None) /\
  @Advance manager s (worldAt 1000) = Panicked AssignmentToNilMap.
Proof.
  simpl. split; [reflexivity|]. split; reflexivity.
Qed.

Lemma Advance_waiting_completes_witness :
  let s := smokeJob JobStage_Waiting 0 reached in
  let w := worldAt 1000 in
  exists js e w',
    @Advance manager s w = Ok (js, e) w' /\
    Stage js = JobStage_Completed /\
    Ts js = 1000 /\
    Params js = Params (state s).
Proof.
  intros s w.
  apply (@Advance_waiting_completes manager s w "task-123"); reflexivity.
Defined.

(** C8, as stated, fails for a negative threshold: the elapsed time is
    negative and the predicate holds. *)
Lemma IsTimedOut_negative_threshold :
  let js := jobState "job-1" JobType_TestSmoke JobStage_Started 10 in
  5 - Ts js < 0 /\ IsTimedOutAt 5 js (-10) = true.
Proof.
  simpl. split; [lia | reflexivity].
Qed.

Lemma IsTimedOut_policy_witness :
  let js := jobState "job-1" JobType_TestSmoke JobStage_Started 10 in
  (0 <= 3 * Second /\ 5 - Ts js < 0) /\
  IsTimedOutAt 5 js (3 * Second) = false.
Proof.
  intros js. split; [split; [vm_compute; discriminate | reflexivity]|].
  apply (proj2 (proj2 (proj2 (IsTimedOut_policy js (3 * Second) (worldAt 0)) 5))).
  - vm_compute; discriminate.
  - reflexivity.
Defined.

End SmokeSpec.

(** ** The notification builder *)

Module NotifsSpec.
Import Notifs.

Lemma string_app_assoc (a b c : string) : (a +:+ b) +:+ c = a +:+ (b +:+ c).
Proof.
  induction a as [|ch a IH]; [reflexivity|].
  change (String ch ((a +:+ b) +:+ c) = String ch (a +:+ (b +:+ c))).
  by rewrite IH.
Qed.

Lemma string_app_nil_r (a : string) : a +:+ "" = a.
Proof.
  induction a as [|ch a IH]; [reflexivity|].
  change (String ch (a +:+ "") = String ch a).
  by rewrite IH.
Qed.

Lemma string_length_app (a b : string) :
  String.length (a +:+ b) = (String.length a + String.length b)%nat.
Proof.
  induction a as [|ch a IH]; [reflexivity|].
  change (S (String.length (a +:+ b)) = S (String.length a + String.length b)).
  by rewrite IH.
Qed.

Lemma fold_left_lines (q : JobState -> bool) (line : JobState -> string) l acc :
  fold_left (fun message js => if q js then message +:+ line js else message)
    l acc
  = acc +:+ fold_right (fun js rest => line js +:+ rest) "" (List.filter q l).
Proof.
  revert acc. induction l as [|js l IH]; intros acc;
    cbn [fold_left List.filter].
  - cbn [fold_right]. by rewrite string_app_nil_r.
  - rewrite IH. destruct (q js); [|reflexivity].
    cbn [fold_right]. by rewrite string_app_assoc.
Qed.

Lemma NoDup_fmap_filter {A B : Type} (f : A -> B) (p : A -> bool) (l : list A) :
  NoDup (f <$> l) -> NoDup (f <$> List.filter p l).
Proof.
  induction l as [|a l IH]; simpl; [done|].
  rewrite NoDup_cons. intros [Hnotin Hnd].
  destruct (p a); simpl; [|by apply IH].
  apply NoDup_cons. split; [|by apply IH].
  intros Hin. apply Hnotin.
  apply list_elem_of_fmap in Hin as (x & -> & Hx).
  apply list_elem_of_fmap. exists x. split; [done|].
  apply list_elem_of_In. apply list_elem_of_In in Hx.
  apply filter_In in Hx. tauto.
Qed.

Section Facts.
Context `{Manager}.

Lemma registered_values (c : Cache) (js : JobState) :
  wellKeyed c ->
  In js (snd <$> map_to_list (jobs c)) <-> jobs c !! Id js = Some js.
Proof.
  intros Hkeys. rewrite <- list_elem_of_In, list_elem_of_fmap. split.
  - intros ([k v] & -> & Hin). apply elem_of_map_to_list in Hin. simpl.
    by rewrite (Hkeys k v Hin).
  - intros Hlook. exists (Id js, js). split; [done|].
    by apply elem_of_map_to_list.
Qed.

Lemma registered_ids (c : Cache) :
  wellKeyed c -> Id <$> (snd <$> map_to_list (jobs c)) = (map_to_list (jobs c)).*1.
Proof.
  intros Hkeys.
  assert (Hall : Forall (fun kv => Id kv.2 = kv.1) (map_to_list (jobs c))).
  { apply Forall_forall. intros [k v] Hin.
    apply elem_of_map_to_list in Hin. simpl. by apply Hkeys. }
  induction Hall as [|kv l Hkv _ IH]; [done|].
  rewrite !fmap_cons. by f_equal.
Qed.

Lemma WriteJob_wellKeyed js c : wellKeyed c -> wellKeyed (WriteJob js c).
Proof.
  intros Hkeys k v. unfold WriteJob; simpl.
  destruct (decide (Id js = k)) as [<-|Hne].
  - rewrite lookup_insert_eq. by intros [= <-].
  - rewrite lookup_insert_ne by done. apply Hkeys.
Qed.

Lemma empty_wellKeyed : wellKeyed {| jobs := ∅ |}.
Proof. intros k v. simpl. by rewrite lookup_empty. Qed.

(** C9: for the job a notification is built for and a job type, the
    field of active jobs of that type has one line for each registered
    job that is active, of that type and not the job itself, and for no
    other; the line of a job is its id, a space, its stage in brackets
    and a line feed; no id occurs twice; and the field is present exactly
    when there is such a job. *)
Theorem activeJobs_field_exact n jobState jobType :
  wellKeyed (cache n) ->
  (forall js,
     In js (listedJobs n jobState jobType) <->
     jobs (cache n) !! Id js = Some js /\
     IsActiveJob js = true /\
     Type_ js = jobType /\
     Id js <> Id jobState) /\
  NoDup (Id <$> listedJobs n jobState jobType) /\
  getActiveJobsByType n jobState jobType =
    ({| Name := NotifField jobType +:+ ":";
        Value :=
          fold_right
            (fun js rest =>
               (Id js +:+ " (" +:+ JobStageString (Stage js) +:+ ")" +:+
                String "010"%char "") +:+ rest)
            "" (listedJobs n jobState jobType) |},
     match listedJobs n jobState jobType with
     | [] => false
     | _ :: _ => true
     end).
Proof.
  intros Hkeys. split; [|split].
  - intros js. unfold listedJobs, JobsByMatcher.
    rewrite !filter_In, registered_values by exact Hkeys.
    rewrite andb_true_iff, !bool_decide_eq_true. tauto.
  - unfold listedJobs, JobsByMatcher.
    do 2 apply NoDup_fmap_filter.
    rewrite registered_ids by exact Hkeys.
    apply NoDup_fst_map_to_list.
  - unfold getActiveJobsByType.
    rewrite fold_left_lines. simpl.
    fold (listedJobs n jobState jobType).
    destruct (listedJobs n jobState jobType) as [|js l]; [reflexivity|].
    f_equal. simpl. unfold jobLine.
    rewrite !string_length_app. simpl.
    apply Nat.ltb_lt. lia.
Qed.

Lemma getComponentMsg_run component sha w :
  (exists msg, (12 <= String.length sha)%nat /\
               getComponentMsg component sha w = Ok msg w) \/
  ((String.length sha < 12)%nat /\
   getComponentMsg component sha w = Panicked SliceBoundsOutOfRange).
Proof.
  unfold getComponentMsg, sliceTo, bind.
  destruct (12 <=? String.length sha)%nat eqn:Hlen.
  - left. eexists. split; [by apply Nat.leb_le | reflexivity].
  - right. split; [by apply Nat.leb_gt | reflexivity].
Qed.

(** C10 (as amended): the message of a component shows the first twelve
    characters of its hash, [sha[:12]]. When [GetDeployHashes] succeeds
    and the hash looked up for one of the three components, in the
    mapping the messages are built from (the mapping of the database
    after a deployment's own valid hash was written over the entry of its
    component), has fewer than twelve characters (the empty string for a
    component that mapping lacks), the slice is out of range: the message
    is not produced and building the fields of the notification
    panics. *)
Theorem short_hash_panics n jobState hashes used component w :
  GetDeployHashes (db n) = (hashes, None) ->
  overwriteJobHash jobState hashes = Some used ->
  component = DeployComponent_Ceramic \/
  component = DeployComponent_Cas \/
  component = DeployComponent_Ipfs ->
  (String.length (hashOf used component) < 12)%nat ->
  getComponentMsg component (hashOf used component) w
    = Panicked SliceBoundsOutOfRange /\
  getDeployHashes n jobState w = Panicked SliceBoundsOutOfRange /\
  getNotifFields n jobState w = Panicked SliceBoundsOutOfRange.
Proof.
  intros Hget Hused Hcomp Hshort.
  assert (Hdeploy : getDeployHashes n jobState w = Panicked SliceBoundsOutOfRange).
  { unfold getDeployHashes, bind at 1, emit. rewrite Hget, Hused.
    unfold orPanic, bind at 1, ret.
    set (w1 := {| clock := clock w; reads := reads w;
                  trace := (trace w ++ [EvGetDeployHashes])%list |}).
    destruct (getComponentMsg_run DeployComponent_Ceramic
                (hashOf used DeployComponent_Ceramic) w1)
      as [(m1 & Hl1 & E1) | (_ & E1)];
      unfold bind at 1; rewrite E1; [|reflexivity].
    destruct (getComponentMsg_run DeployComponent_Cas
                (hashOf used DeployComponent_Cas) w1)
      as [(m2 & Hl2 & E2) | (_ & E2)];
      unfold bind at 1; rewrite E2; [|reflexivity].
    destruct (getComponentMsg_run DeployComponent_Ipfs
                (hashOf used DeployComponent_Ipfs) w1)
      as [(m3 & Hl3 & E3) | (_ & E3)];
      unfold bind at 1; rewrite E3; [|reflexivity].
    destruct Hcomp as [-> | [-> | ->]]; lia. }
  split; [|split].
  - destruct (getComponentMsg_run component (hashOf used component) w)
      as [(m & Hl & _) | (_ & E)]; [lia | exact E].
  - exact Hdeploy.
  - unfold getNotifFields, bind. by rewrite Hdeploy.
Qed.

End Facts.

Import Samples.

Lemma activeJobs_field_exact_witness :
  let n := notifs ∅ in
  let jobState := jobState "job-2" JobType_TestSmoke JobStage_Waiting 20 in
  wellKeyed (cache n) /\
  listedJobs (H := manager) n jobState JobType_TestSmoke
    = [Samples.jobState "job-1" JobType_TestSmoke JobStage_Started 10] /\
  NoDup (Id <$> listedJobs (H := manager) n jobState JobType_TestSmoke) /\
  getActiveJobsByType (H := manager) n jobState JobType_TestSmoke
    = ({| Name := "test_smoke:";
          Value := "job-1 (started)" +:+ String "010"%char "" |}, true).
Proof.
  intros n jobState.
  assert (Hkeys : wellKeyed (cache n)).
  { repeat apply WriteJob_wellKeyed. apply empty_wellKeyed. }
  split; [exact Hkeys|].
  split; [vm_compute; reflexivity|].
  pose proof (activeJobs_field_exact (H := manager) n jobState
                JobType_TestSmoke Hkeys) as (_ & Hnd & Hfield).
  split; [exact Hnd|].
  rewrite Hfield. vm_compute. reflexivity.
Defined.

Lemma short_hash_panics_witness :
  let hashes : GoMap string :=
    {[ "ceramic" := "0123456789abcdef0123456789abcdef01234567";
       "cas" := "89abcdef0123456789abcdef0123456789abcdef" ]} in
  let jobState := jobState "job-2" JobType_TestSmoke JobStage_Waiting 20 in
  hashOf hashes "ipfs" = "" /\
  getNotifFields (H := manager) (notifs hashes) jobState (worldAt 1000)
    = Panicked SliceBoundsOutOfRange.
Proof.
  intros hashes jobState. split; [vm_compute; reflexivity|].
  apply (short_hash_panics (H := manager) (notifs hashes) jobState hashes
           hashes "ipfs" (worldAt 1000)).
  - reflexivity.
  - reflexivity.
  - right; right; reflexivity.
  - vm_compute. lia.
Defined.

(** C10, as stated, fails: the database returns no hash for [cas], the
    notification is about a deployment of [cas] whose own hash is valid,
    and the fields are built without a panic, the job's hash standing in
    for the missing one. *)
Lemma short_returned_hash_overwritten :
  let hashes : GoMap string :=
    {[ "ceramic" := "0123456789abcdef0123456789abcdef01234567";
       "ipfs" := "fedcba9876543210fedcba9876543210fedcba98" ]} in
  let job := DiscordSamples.deployJob "aaaaaaaaaabbbbbbbbbbccccccccccdddddddddd" in
  GetDeployHashes (db (notifs hashes)) = (hashes, None) /\
  (String.length (hashOf hashes "cas") < 12)%nat /\
  returns (getNotifFields (H := manager) (notifs hashes) job (worldAt 1000))
    = true.
Proof.
  simpl. split; [reflexivity|]. split; [vm_compute; lia|].
  vm_compute. reflexivity.
Qed.

End NotifsSpec.

(** ** The smoke-test job: transition table, effects and the driver loop *)

Module SmokeTable.
Import Jobs Steps SmokeSpec.
Section Facts.
Context `{Manager}.

Lemma Advance_Step s w js e w' :
  Advance s w = Ok (js, e) w' -> Step s w js e w'.
Proof.
  intros Hrun.
  destruct (Stage (state s)) eqn:Hstage.
  - rewrite Advance_Queued, advance_run, after_after in Hrun by exact Hstage.
    inversion Hrun; subst. by apply Step_dequeue.
  - rewrite Advance_Dequeued in Hrun by exact Hstage.
    destruct (LaunchTask _ _ _ _ _ _) as [id [err|]] eqn:Hlaunch;
      [|destruct (Params (state s)) as [|entries] eqn:Hparams; [discriminate|]];
      rewrite advance_run, after_after in Hrun; inversion Hrun; subst.
    + by eapply Step_launch_failed.
    + eapply Step_launched; try done. by rewrite Hparams.
  - destruct (Params (state s) !! JobParam_Id) as [[tid| | |]|] eqn:Hid.
    2-5: unfold Advance, bind, Now in Hrun; rewrite Hstage in Hrun;
         rewrite checkTests_panics in Hrun
           by (intros tid; rewrite Hid; discriminate);
         discriminate.
    assert (Hpoll : polling s true JobStage_Waiting) by (left; auto).
    rewrite (Advance_polling s true JobStage_Waiting tid) in Hrun
      by (exact Hpoll || exact Hid).
    destruct (CheckTask _ _ _ _ _ _) as [[|] [err|]] eqn:Hck;
      [| | |destruct (IsTimedOutAt _ _ _) eqn:Hlate];
      rewrite ?advance_run, ?after_after in Hrun; inversion Hrun; subst.
    + by eapply Step_poll_error.
    + by eapply Step_poll_reached.
    + by eapply Step_poll_error.
    + by eapply (Step_poll_timeout s w true).
    + by eapply Step_poll_wait.
  - destruct (Params (state s) !! JobParam_Id) as [[tid| | |]|] eqn:Hid.
    2-5: unfold Advance, bind, Now in Hrun; rewrite Hstage in Hrun;
         rewrite checkTests_panics in Hrun
           by (intros tid; rewrite Hid; discriminate);
         discriminate.
    assert (Hpoll : polling s false JobStage_Completed) by (right; auto).
    rewrite (Advance_polling s false JobStage_Completed tid) in Hrun
      by (exact Hpoll || exact Hid).
    destruct (CheckTask _ _ _ _ _ _) as [[|] [err|]] eqn:Hck;
      [| | |destruct (IsTimedOutAt _ _ _) eqn:Hlate];
      rewrite ?advance_run, ?after_after in Hrun; inversion Hrun; subst.
    + by eapply Step_poll_error.
    + by eapply Step_poll_reached.
    + by eapply Step_poll_error.
    + by eapply (Step_poll_timeout s w false).
    + by eapply Step_poll_wait.
  - rewrite Advance_other, advance_run, after_after in Hrun
      by (rewrite Hstage; discriminate).
    inversion Hrun; subst. apply Step_unexpected; rewrite ?Hstage; done.
  - rewrite Advance_other, advance_run, after_after in Hrun
      by (rewrite Hstage; discriminate).
    inversion Hrun; subst. apply Step_unexpected; rewrite ?Hstage; done.
  - rewrite Advance_other, advance_run, after_after in Hrun
      by (rewrite Hstage; discriminate).
    inversion Hrun; subst. apply Step_unexpected; rewrite ?Hstage; done.
  - rewrite Advance_other, advance_run, after_after in Hrun
      by (rewrite Hstage; discriminate).
    inversion Hrun; subst. apply Step_unexpected; rewrite ?Hstage; done.
  - rewrite Advance_other, advance_run, after_after in Hrun
      by (rewrite Hstage; discriminate).
    inversion Hrun; subst. apply Step_unexpected; rewrite ?Hstage; done.
Qed.

Lemma backendCalls_moved before js :
  backendCalls (moved before js) = backendCalls before.
Proof.
  unfold backendCalls, moved. rewrite List.filter_app. simpl.
  by rewrite app_nil_r.
Qed.

(** X1: every run of [Advance] that returns follows an edge of the stage
    graph of its [switch], and the returned state has the [Id] and [Type]
    of the input; so no run ends in [Queued], [Delayed], [Skipped] or
    [Canceled], and only a [Waiting] job can become [Completed]. *)
Theorem Advance_follows_graph s w js e w' :
  Advance s w = Ok (js, e) w' ->
  allowedNext (Stage (state s)) (Stage js) = true /\
  Id js = Id (state s) /\
  Type_ js = Type_ (state s) /\
  Stage js <> JobStage_Queued /\
  Stage js <> JobStage_Delayed /\
  Stage js <> JobStage_Skipped /\
  Stage js <> JobStage_Canceled /\
  (Stage js = JobStage_Completed -> Stage (state s) = JobStage_Waiting).
Proof.
  intros Hrun. apply Advance_Step in Hrun.
  assert (Hgraph : allowedNext (Stage (state s)) (Stage js) = true /\
                   Id js = Id (state s) /\ Type_ js = Type_ (state s)).
  { inversion Hrun as
      [js0 Hst Hjs | id err js0 Hst Hl Hjs | id js0 Hst Hl Hjs
      | running next tid answer err js0 Hp Hid Hck Hjs
      | running next tid js0 Hp Hid Hck Hjs
      | running next tid js0 Hp Hid Hck Hlate Hjs
      | running next tid Hp Hid Hck Hlate
      | js0 H1 H2 H3 H4 Hjs]; subst; simpl;
      try (rewrite Hst; by repeat split);
      try (destruct Hp as [(-> & -> & ->) | (-> & -> & ->)]; by repeat split).
    destruct (Stage (state s)); by repeat split. }
  destruct Hgraph as (Hedge & Hid & Hty). repeat split; try done;
    try (intros Hto; rewrite Hto in Hedge;
         destruct (Stage (state s)); discriminate).
  intros Hto. rewrite Hto in Hedge.
  destruct (Stage (state s)); done.
Qed.

(** X2: what a run of [Advance] that returns has done outside the job:
    it read the clock once or twice, called the backend at most once (not
    at all outside [Dequeued], [Started] and [Waiting]), added to the
    trace without touching what was there, and either saved and notified
    exactly the state it returns, once and in this order, or saved and
    notified nothing and returns the state it was given. *)
Theorem Advance_effects s w js e w' :
  Advance s w = Ok (js, e) w' ->
  exists k evs,
    w' = after k evs w /\
    (1 <= k <= 2)%nat /\
    (List.length (backendCalls evs) <= 1)%nat /\
    (Stage (state s) <> JobStage_Dequeued ->
     Stage (state s) <> JobStage_Started ->
     Stage (state s) <> JobStage_Waiting ->
     backendCalls evs = []) /\
    (transitions evs = [EvSaveJob js; EvNotifyJob js] \/
     (transitions evs = [] /\ js = state s)).
Proof.
  intros Hrun. apply Advance_Step in Hrun.
  inversion Hrun; subst;
    eexists _, _; (split; [reflexivity|]); (split; [lia|]);
    rewrite ?backendCalls_moved; simpl;
    (split; [lia|]);
    (split;
     [ intros;
       solve [ reflexivity
             | congruence
             | match goal with
               | Hp : polling _ _ _ |- _ =>
                 destruct Hp as [(_ & ? & _) | (_ & ? & _)]; congruence
               end ]
     | solve [ left; reflexivity | right; by split ] ]).
Qed.

(** X3: [Advance] writes to [Params] under three keys only, the task
    identifier, the start time and the error: every other key holds after
    a run what it held before; and outside the stage [Dequeued] the error
    key is the only one that can change, so a task identifier once
    recorded stays. *)
Theorem Advance_params_frame s w js e w' key :
  Advance s w = Ok (js, e) w' ->
  key <> JobParam_Error ->
  (key <> JobParam_Id /\ key <> JobParam_Start) \/
  Stage (state s) <> JobStage_Dequeued ->
  Params js !! key = Params (state s) !! key.
Proof.
  intros Hrun Hk Hcase. apply Advance_Step in Hrun.
  inversion Hrun; subst; unfold nextState, launched; cbn [Params];
    try reflexivity;
    try (rewrite GoMapFacts.lookup_other by congruence; reflexivity).
  destruct Hcase as [[Hk1 Hk2] | Hst]; [|congruence].
  rewrite !GoMapFacts.lookup_other by congruence. reflexivity.
Qed.

(** X4: [Advance] panics in exactly two cases. In stage [Started] or
    [Waiting], when [Params] hold no string under the task-identifier key
    (the key is missing, the value is of another type, or the map is
    nil): the panic is the failed type assertion. In stage [Dequeued],
    when the launch succeeded and [Params] are nil: the panic is the
    assignment to an entry of a nil map. In every other case it returns,
    the transition primitive being taken not to panic, as the spec
    describes it. *)
Theorem Advance_panics_iff s w p :
  Advance s w = Panicked p <->
  (p = InterfaceConversion /\
   (Stage (state s) = JobStage_Started \/ Stage (state s) = JobStage_Waiting) /\
   assertString (Params (state s) !! JobParam_Id) = None) \/
  (p = AssignmentToNilMap /\
   Stage (state s) = JobStage_Dequeued /\
   snd (LaunchTask (d s) ClusterName (FamilyPrefix +:+ env s) ContainerName
          NetworkConfigurationParameter None) = None /\
   Params (state s) = NilMap).
Proof.
  split.
  - intros Hrun. destruct (Stage (state s)) eqn:Hstage.
    + rewrite Advance_Queued, advance_run in Hrun by exact Hstage. discriminate.
    + rewrite Advance_Dequeued in Hrun by exact Hstage.
      destruct (LaunchTask _ _ _ _ _ _) as [id [err|]];
        [rewrite advance_run in Hrun; discriminate|].
      destruct (Params (state s));
        [|rewrite advance_run in Hrun; discriminate].
      injection Hrun as <-. right. by repeat split.
    + destruct (assertString (Params (state s) !! JobParam_Id)) as [tid|] eqn:Hid.
      * assert (Hid' : Params (state s) !! JobParam_Id = Some (VString tid)).
        { destruct (Params (state s) !! JobParam_Id) as [[x| | |]|];
            simpl in Hid; congruence. }
        rewrite (Advance_polling s true JobStage_Waiting tid) in Hrun by tauto.
        destruct (CheckTask _ _ _ _ _ _) as [[|] [err|]];
          [| | |destruct (IsTimedOutAt _ _ _)];
          rewrite ?advance_run in Hrun; discriminate.
      * unfold Advance, bind, Now in Hrun. rewrite Hstage in Hrun.
        unfold checkTests, bind in Hrun. rewrite Hid in Hrun. simpl in Hrun.
        injection Hrun as <-. left. tauto.
    + destruct (assertString (Params (state s) !! JobParam_Id)) as [tid|] eqn:Hid.
      * assert (Hid' : Params (state s) !! JobParam_Id = Some (VString tid)).
        { destruct (Params (state s) !! JobParam_Id) as [[x| | |]|];
            simpl in Hid; congruence. }
        rewrite (Advance_polling s false JobStage_Completed tid) in Hrun by tauto.
        destruct (CheckTask _ _ _ _ _ _) as [[|] [err|]];
          [| | |destruct (IsTimedOutAt _ _ _)];
          rewrite ?advance_run in Hrun; discriminate.
      * unfold Advance, bind, Now in Hrun. rewrite Hstage in Hrun.
        unfold checkTests, bind in Hrun. rewrite Hid in Hrun. simpl in Hrun.
        injection Hrun as <-. left. tauto.
    + rewrite Advance_other, advance_run in Hrun
        by (rewrite Hstage; discriminate). discriminate.
    + rewrite Advance_other, advance_run in Hrun
        by (rewrite Hstage; discriminate). discriminate.
    + rewrite Advance_other, advance_run in Hrun
        by (rewrite Hstage; discriminate). discriminate.
    + rewrite Advance_other, advance_run in Hrun
        by (rewrite Hstage; discriminate). discriminate.
    + rewrite Advance_other, advance_run in Hrun
        by (rewrite Hstage; discriminate). discriminate.
  - intros [(-> & Hst & Hid) | (-> & Hst & Hlaunch & Hnil)].
    + unfold Advance, bind, Now.
      destruct Hst as [-> | ->];
        unfold checkTests, bind; by rewrite Hid.
    + rewrite Advance_Dequeued by exact Hst.
      destruct (LaunchTask _ _ _ _ _ _) as [id [err|]];
        simpl in Hlaunch; [discriminate|].
      by rewrite Hnil.
Qed.

Lemma Step_Advance s w js e w' :
  Step s w js e w' -> Advance s w = Ok (js, e) w'.
Proof.
  intros Hstep.
  destruct Hstep as
    [js Hst -> | id err js Hst Hl -> | id js Hst Hl Halloc ->
    | running next tid answer err js Hp Hid Hck ->
    | running next tid js Hp Hid Hck ->
    | running next tid js Hp Hid Hck Hlate ->
    | running next tid Hp Hid Hck Hlate
    | js H1 H2 H3 H4 ->].
  - by rewrite Advance_Queued, advance_run, after_after.
  - rewrite Advance_Dequeued, Hl by exact Hst.
    by rewrite advance_run, after_after.
  - rewrite Advance_Dequeued, Hl by exact Hst.
    destruct (Params (state s)); [done|].
    by rewrite advance_run, after_after.
  - rewrite (Advance_polling s running next tid), Hck by done.
    destruct answer; by rewrite advance_run, after_after.
  - rewrite (Advance_polling s running next tid), Hck by done.
    by rewrite advance_run, after_after.
  - rewrite (Advance_polling s running next tid), Hck, Hlate by done.
    by rewrite advance_run, after_after.
  - by rewrite (Advance_polling s running next tid), Hck, Hlate by done.
  - rewrite Advance_other by done. by rewrite advance_run, after_after.
Qed.

Lemma AdvanceTimes_next n s w js e w1 :
  Advance s w = Ok (js, e) w1 ->
  AdvanceTimes (S (S n)) s w =
  AdvanceTimes (S n) {| state := js; env := env s; d := d s |} w1.
Proof.
  intros Hrun.
  change (AdvanceTimes (S (S n)) s w)
    with (bind (Advance s)
            (fun x => match x with
                      | (js', _) =>
                        AdvanceTimes (S n)
                          {| state := js'; env := env s; d := d s |}
                      end) w).
  unfold bind. by rewrite Hrun.
Qed.

(** X5: a [Started] job whose task the backend reports running, without
    error, moves to [Waiting] with [Ts] the invocation time and [Params]
    as they were. The startup timeout is not looked at on this path (the
    clock is read once): a task that is found running goes on however
    long the start took. *)
Theorem Advance_started_waits s w tid :
  Params (state s) !! JobParam_Id = Some (VString tid) ->
  Stage (state s) = JobStage_Started ->
  CheckTask (d s) ClusterName "" true false tid = (true, None) ->
  exists js e evs,
    Advance s w = Ok (js, e) (after 1 evs w) /\
    Stage js = JobStage_Waiting /\
    Ts js = clock w (reads w) /\
    Params js = Params (state s) /\
    backendCalls evs = [EvCheckTask ClusterName "" true false tid].
Proof.
  intros Hid Hst Hck.
  rewrite (Advance_polling s true JobStage_Waiting tid) by tauto.
  rewrite Hck, advance_run, after_after.
  eexists _, _, _. split; [reflexivity|]. by repeat split.
Qed.

(** X6: what [checkTests] answers. It says [true] exactly when the
    backend said [true] without error, and then its error is nil and the
    clock was not read; an error of the backend is passed on with [false],
    whatever status came with it; any other error is the timeout of the
    poll, raised only after the backend answered [false] without
    error. *)
Theorem checkTests_answers s running w b e w' :
  checkTests s running w = Ok (b, e) w' ->
  exists tid answer backendErr,
    Params (state s) !! JobParam_Id = Some (VString tid) /\
    CheckTask (d s) ClusterName "" running false tid = (answer, backendErr) /\
    (b = true <-> answer = true /\ backendErr = None) /\
    (b = true -> e = None /\ reads w' = reads w) /\
    (forall err, backendErr = Some err -> b = false /\ e = Some err) /\
    (forall err, e = Some err -> backendErr = None ->
       err = pollError running /\ answer = false /\
       elapsedAt w (state s) > pollTimeout running).
Proof.
  intros Hrun.
  destruct (Params (state s) !! JobParam_Id) as [[tid| | |]|] eqn:Hid.
  2-5: rewrite checkTests_panics in Hrun
         by (intros tid; rewrite Hid; discriminate);
       discriminate.
  rewrite (checkTests_run s running tid) in Hrun by exact Hid.
  exists tid.
  destruct (CheckTask (d s) ClusterName "" running false tid)
    as [[|] [err|]] eqn:Hck;
    [| | |destruct (IsTimedOutAt _ _ _) eqn:Hlate];
    inversion Hrun; subst; eexists _, _; (split; [reflexivity|]);
    (split; [reflexivity|]); simpl;
    repeat split; intros; try congruence;
    try (destruct_and?; congruence).
  unfold elapsedAt. by apply IsTimedOutAt_gt.
Qed.

(** X7: the whole life of a smoke test. For a [Queued] job whose
    [Params] are an allocated map, with a backend that launches the task
    and then reports it running and stopped, four calls of [Advance] take
    the job through [Dequeued], [Started] and [Waiting] to [Completed];
    the job keeps its [Id], [Params] end up holding the task identifier,
    and the backend was called three times: the launch, the check for
    running, the check for stopped. *)
Theorem AdvanceTimes_completes s w id :
  JobParam_Id <> JobParam_Start ->
  Params (state s) <> NilMap ->
  Stage (state s) = JobStage_Queued ->
  LaunchTask (d s) ClusterName (FamilyPrefix +:+ env s) ContainerName
    NetworkConfigurationParameter None = (id, None) ->
  CheckTask (d s) ClusterName "" true false id = (true, None) ->
  CheckTask (d s) ClusterName "" false false id = (true, None) ->
  resultStage (AdvanceTimes 1 s w) = Some JobStage_Dequeued /\
  resultStage (AdvanceTimes 2 s w) = Some JobStage_Started /\
  resultStage (AdvanceTimes 3 s w) = Some JobStage_Waiting /\
  exists js e w',
    AdvanceTimes 4 s w = Ok (js, e) w' /\
    Stage js = JobStage_Completed /\
    Id js = Id (state s) /\
    Params js !! JobParam_Id = Some (VString id) /\
    backendCalls (trace w') =
      (backendCalls (trace w) ++
       [launchEvent s;
        EvCheckTask ClusterName "" true false id;
        EvCheckTask ClusterName "" false false id])%list.
Proof.
  intros Hne Halloc Hst Hlaunch Hrunning Hstopped.
  destruct s as [st en dep]; simpl in Halloc, Hst, Hlaunch, Hrunning, Hstopped.
  set (s0 := {| state := st; env := en; d := dep |}) in *.
  (* first call *)
  pose (js1 := nextState st JobStage_Dequeued (Ts st) None).
  pose (w1 := after 1 (moved [] js1) w).
  assert (H1 : Advance s0 w = Ok (js1, None) w1).
  { apply Step_Advance. by apply Step_dequeue. }
  (* second call *)
  set (s1 := {| state := js1; env := en; d := dep |}).
  pose (js2 := nextState (launched js1 id (clock w1 (S (reads w1))))
                 JobStage_Started (clock w1 (reads w1)) None).
  pose (w2 := after 2 (moved [launchEvent s1] js2) w1).
  assert (H2 : Advance s1 w1 = Ok (js2, None) w2).
  { apply Step_Advance. by eapply Step_launched. }
  assert (Hid2 : Params js2 !! JobParam_Id = Some (VString id)).
  { unfold js2, nextState, launched; cbn [Params].
    rewrite GoMapFacts.lookup_other by congruence.
    apply GoMapFacts.lookup_assigned. }
  (* third call *)
  set (s2 := {| state := js2; env := en; d := dep |}).
  pose (js3 := nextState js2 JobStage_Waiting (clock w2 (reads w2)) None).
  pose (w3 := after 1 (moved [EvCheckTask ClusterName "" true false id] js3) w2).
  assert (H3 : Advance s2 w2 = Ok (js3, None) w3).
  { apply Step_Advance.
    eapply (Step_poll_reached s2 w2 true JobStage_Waiting id); try done.
    left. by repeat split. }
  (* fourth call *)
  set (s3 := {| state := js3; env := en; d := dep |}).
  pose (js4 := nextState js3 JobStage_Completed (clock w3 (reads w3)) None).
  pose (w4 := after 1 (moved [EvCheckTask ClusterName "" false false id] js4) w3).
  assert (H4 : Advance s3 w3 = Ok (js4, None) w4).
  { apply Step_Advance.
    eapply (Step_poll_reached s3 w3 false JobStage_Completed id); try done.
    right. by repeat split. }
  split; [simpl; by rewrite H1|].
  split; [rewrite (AdvanceTimes_next 0 s0 w js1 None w1 H1); simpl;
          fold s1; by rewrite H2|].
  split; [rewrite (AdvanceTimes_next 1 s0 w js1 None w1 H1); simpl env; simpl d;
          fold s1;
          rewrite (AdvanceTimes_next 0 s1 w1 js2 None w2 H2); simpl;
          fold s2; by rewrite H3|].
  exists js4, None, w4. split.
  - rewrite (AdvanceTimes_next 2 s0 w js1 None w1 H1); simpl env; simpl d.
    fold s1.
    rewrite (AdvanceTimes_next 1 s1 w1 js2 None w2 H2); simpl env; simpl d.
    fold s2.
    rewrite (AdvanceTimes_next 0 s2 w2 js3 None w3 H3); simpl env; simpl d.
    fold s3. exact H4.
  - split; [reflexivity|]. split; [reflexivity|]. split; [exact Hid2|].
    unfold w4, w3, w2, w1. simpl.
    unfold backendCalls, moved. rewrite !List.filter_app. simpl.
    rewrite !app_nil_r, <- !app_assoc. reflexivity.
Qed.

(** X8: polling is safe to repeat. While the backend answers that the
    awaited condition has not occurred, without error, and no reading of
    the clock is later than the timeout of the stage allows, any number of
    calls of [Advance] (the second on the state the first returned, and
    so on) returns the very state it started from with a nil error; each
    call asks the backend once and nothing is saved or notified. *)
Theorem AdvanceTimes_polls_unchanged s running next tid n w :
  polling s running next ->
  Params (state s) !! JobParam_Id = Some (VString tid) ->
  CheckTask (d s) ClusterName "" running false tid = (false, None) ->
  (forall k, clock w k - Ts (state s) <= pollTimeout running) ->
  (0 < n)%nat ->
  AdvanceTimes n s w =
  Ok (state s, None)
     (after (2 * n)
        (repeat (EvCheckTask ClusterName "" running false tid) n) w).
Proof.
  intros Hp Hid Hck Hclock Hn.
  destruct n as [|n]; [lia|]. clear Hn.
  destruct s as [st en dep]; simpl in Hid, Hck, Hclock.
  set (s0 := {| state := st; env := en; d := dep |}) in *.
  assert (Hone : forall w0, clock w0 = clock w ->
            Advance s0 w0 =
            Ok (st, None)
               (after 2 [EvCheckTask ClusterName "" running false tid] w0)).
  { intros w0 Hw0. apply (Step_Advance s0 w0 st None).
    apply (Step_poll_wait s0 w0 running next tid); try done.
    apply IsTimedOutAt_le. rewrite Hw0. apply Hclock. }
  revert w Hclock Hone. induction n as [|n IH]; intros w Hclock Hone.
  - simpl AdvanceTimes. by rewrite Hone.
  - rewrite (AdvanceTimes_next n s0 w st None _ (Hone w eq_refl)).
    simpl env; simpl d. fold s0.
    rewrite IH.
    + rewrite after_after. simpl state. f_equal. f_equal. lia.
    + exact Hclock.
    + intros w0 Hw0. apply Hone. by rewrite Hw0.
Qed.

End Facts.

Import Samples DiscordSamples.

Lemma Advance_follows_graph_witness :
  let s := smokeJob JobStage_Waiting 0 reached in
  let w := worldAt 1000 in
  exists js e w',
    @Advance manager s w = Ok (js, e) w' /\
    allowedNext (Stage (state s)) (Stage js) = true /\
    Id js = Id (state s) /\
    Type_ js = Type_ (state s) /\
    Stage js <> JobStage_Queued /\
    Stage js <> JobStage_Delayed /\
    Stage js <> JobStage_Skipped /\
    Stage js <> JobStage_Canceled /\
    (Stage js = JobStage_Completed -> Stage (state s) = JobStage_Waiting).
Proof.
  intros s w.
  destruct (@Advance manager s w) as [[js e] w'|p] eqn:Hrun.
  - exists js, e, w'. split; [reflexivity|].
    exact (Advance_follows_graph (H := manager) s w js e w' Hrun).
  - vm_compute in Hrun. discriminate.
Defined.

Lemma Advance_effects_witness :
  let s := smokeJob JobStage_Dequeued 0 pending in
  let w := worldAt 1000 in
  exists js e w',
    @Advance manager s w = Ok (js, e) w' /\
    exists k evs,
      w' = after k evs w /\
      (1 <= k <= 2)%nat /\
      (List.length (backendCalls evs) <= 1)%nat /\
      (Stage (state s) <> JobStage_Dequeued ->
       Stage (state s) <> JobStage_Started ->
       Stage (state s) <> JobStage_Waiting ->
       backendCalls evs = []) /\
      (transitions evs = [EvSaveJob js; EvNotifyJob js] \/
       (transitions evs = [] /\ js = state s)).
Proof.
  intros s w.
  destruct (@Advance manager s w) as [[js e] w'|p] eqn:Hrun.
  - exists js, e, w'. split; [reflexivity|].
    exact (Advance_effects (H := manager) s w js e w' Hrun).
  - vm_compute in Hrun. discriminate.
Defined.

Lemma Advance_params_frame_witness :
  let s := smokeJob JobStage_Started 0 reached in
  let w := worldAt 1000 in
  exists js e w',
    @Advance manager s w = Ok (js, e) w' /\
    Params js !! "id" = Params (state s) !! "id".
Proof.
  intros s w.
  destruct (@Advance manager s w) as [[js e] w'|p] eqn:Hrun.
  - exists js, e, w'. split; [reflexivity|].
    apply (Advance_params_frame (H := manager) s w js e w' "id" Hrun).
    + discriminate.
    + right. discriminate.
  - vm_compute in Hrun. discriminate.
Defined.

Lemma Advance_panics_iff_witness :
  @Advance manager (bareJob JobStage_Started pending) (worldAt 1000)
    = Panicked InterfaceConversion /\
  @Advance manager (nilJob JobStage_Dequeued pending) (worldAt 1000)
    = Panicked AssignmentToNilMap.
Proof.
  split.
  - apply (Advance_panics_iff (H := manager)). left.
    split; [reflexivity|]. split; [by left | reflexivity].
  - apply (Advance_panics_iff (H := manager)). right.
    repeat split.
Defined.

Lemma Advance_started_waits_witness :
  let s := smokeJob JobStage_Started 0 reached in
  let w := worldAt (20 * Minute) in
  elapsed s w > @DefaultWaitTime manager /\
  exists js e evs,
    @Advance manager s w = Ok (js, e) (after 1 evs w) /\
    Stage js = JobStage_Waiting /\
    Ts js = clock w (reads w) /\
    Params js = Params (state s) /\
    backendCalls evs = [EvCheckTask ClusterName "" true false "task-123"].
Proof.
  intros s w. split; [vm_compute; reflexivity|].
  apply (Advance_started_waits (H := manager) s w "task-123"); reflexivity.
Defined.

Lemma checkTests_answers_witness :
  let s := smokeJob JobStage_Started 0 broken in
  let w := worldAt 1000 in
  exists b e w',
    @checkTests manager s true w = Ok (b, e) w' /\
    b = false /\ e = Some (errorString "backend unreachable").
Proof.
  intros s w.
  destruct (@checkTests manager s true w) as [[b e] w'|p] eqn:Hrun.
  - exists b, e, w'. split; [reflexivity|].
    destruct (checkTests_answers (H := manager) s true w b e w' Hrun)
      as (tid & answer & backendErr & _ & Hck & _ & _ & Herr & _).
    apply Herr. vm_compute in Hck. congruence.
  - vm_compute in Hrun. discriminate.
Defined.

Lemma AdvanceTimes_completes_witness :
  let s := smokeJob JobStage_Queued 42 reached in
  let w := worldAt 1000 in
  resultStage (@AdvanceTimes manager 1 s w) = Some JobStage_Dequeued /\
  resultStage (@AdvanceTimes manager 2 s w) = Some JobStage_Started /\
  resultStage (@AdvanceTimes manager 3 s w) = Some JobStage_Waiting /\
  exists js e w',
    @AdvanceTimes manager 4 s w = Ok (js, e) w' /\
    Stage js = JobStage_Completed /\
    Id js = Id (state s) /\
    Params js !! "id" = Some (VString "task-123") /\
    backendCalls (trace w') =
      (backendCalls (trace w) ++
       [launchEvent s;
        EvCheckTask ClusterName "" true false "task-123";
        EvCheckTask ClusterName "" false false "task-123"])%list.
Proof.
  intros s w.
  apply (AdvanceTimes_completes (H := manager) s w "task-123");
    try reflexivity; discriminate.
Defined.

Lemma AdvanceTimes_polls_unchanged_witness :
  let s := smokeJob JobStage_Started 0 pending in
  let w := frozenAt 1000 in
  @AdvanceTimes manager 3 s w =
  Ok (state s, None)
     (after 6 (repeat (EvCheckTask ClusterName "" true false "task-123") 3) w).
Proof.
  intros s w.
  apply (AdvanceTimes_polls_unchanged (H := manager) s true JobStage_Waiting
           "task-123" 3 w).
  - left. by repeat split.
  - reflexivity.
  - reflexivity.
  - intros k. vm_compute. discriminate.
  - lia.
Defined.

End SmokeTable.

(** ** The Discord notifier *)

Module DiscordSpec.
Import Notifs Discord NotifsSpec.

Lemma splitOn_nonempty sep s : splitOn sep s <> [].
Proof.
  destruct s as [|c s]; simpl; [done|].
  destruct (Ascii.eqb c sep); [done|].
  destruct (splitOn sep s); done.
Qed.

Lemma splitOn_no_sep sep s : hasChar sep s = false -> splitOn sep s = [s].
Proof.
  induction s as [|c s IH]; simpl; [done|].
  intros Hno. apply orb_false_iff in Hno as [Hc Hs].
  rewrite Hc, (IH Hs). reflexivity.
Qed.

Lemma splitOn_app sep p r :
  splitOn sep (p +:+ String sep r) = (splitOn sep p ++ splitOn sep r)%list.
Proof.
  induction p as [|c p IH].
  - change (splitOn sep (String sep r) = ([EmptyString] ++ splitOn sep r)%list).
    simpl. by rewrite Ascii.eqb_refl.
  - change (String c p +:+ String sep r) with (String c (p +:+ String sep r)).
    simpl. rewrite IH.
    destruct (Ascii.eqb c sep); [reflexivity|].
    pose proof (splitOn_nonempty sep p) as Hne.
    destruct (splitOn sep p) as [|piece pieces]; [done|]. reflexivity.
Qed.

Lemma splitOn_with_sep sep s :
  hasChar sep s = true -> (2 <= List.length (splitOn sep s))%nat.
Proof.
  induction s as [|c s IH]; simpl; [done|].
  destruct (Ascii.eqb c sep) eqn:Hc; simpl.
  - intros _. pose proof (splitOn_nonempty sep s).
    destruct (splitOn sep s); [done | simpl; lia].
  - intros Hs. specialize (IH Hs).
    destruct (splitOn sep s); simpl in *; lia.
Qed.

Lemma indexAt_last_two {A : Type} (front : list A) (a b : A) :
  let l := (front ++ [a; b])%list in
  indexAt l (Z.of_nat (List.length l) - 2) = Some a /\
  indexAt l (Z.of_nat (List.length l) - 1) = Some b.
Proof.
  simpl. unfold indexAt. rewrite length_app. simpl.
  split.
  - replace (Z.of_nat (List.length front + 2) - 2)%Z
      with (Z.of_nat (List.length front)) by lia.
    destruct (Z.ltb_spec (Z.of_nat (List.length front)) 0); [lia|].
    rewrite Nat2Z.id, nth_error_app2 by lia.
    by rewrite Nat.sub_diag.
  - replace (Z.of_nat (List.length front + 2) - 1)%Z
      with (Z.of_nat (S (List.length front))) by lia.
    destruct (Z.ltb_spec (Z.of_nat (S (List.length front))) 0); [lia|].
    rewrite Nat2Z.id, nth_error_app2 by lia.
    by replace (S (List.length front) - List.length front)%nat with 1%nat by lia.
Qed.

Lemma nonempty_length (s : string) : (0 <? String.length s)%nat = true <-> s <> "".
Proof.
  destruct s; simpl; split; intros; try done.
Qed.

Section Facts.
Context `{Manager} `{Externals}.

(** X9: [parseDiscordWebhookUrl] panics, on an index out of range,
    exactly when the variable is set and the path of its URL holds no
    slash (an empty path, for one): [strings.Split] then gives a single
    piece and the piece before the last does not exist. An unset variable
    and a URL that does not parse never panic. *)
Theorem parseDiscordWebhookUrl_panics_iff urlEnv :
  parseDiscordWebhookUrl urlEnv = IndexOutOfRange <->
  Getenv urlEnv <> "" /\
  exists path, urlParse (Getenv urlEnv) = inl path /\
               hasChar "/"%char path = false.
Proof.
  unfold parseDiscordWebhookUrl.
  destruct (0 <? String.length (Getenv urlEnv))%nat eqn:Hset.
  - apply nonempty_length in Hset.
    destruct (urlParse (Getenv urlEnv)) as [path|err] eqn:Hparse.
    + destruct (hasChar "/"%char path) eqn:Hslash.
      * pose proof (splitOn_with_sep _ _ Hslash) as Hlen.
        unfold indexAt.
        destruct (Z.ltb_spec (Z.of_nat (List.length (splitOn "/"%char path)) - 2) 0);
          [lia|].
        destruct (Z.ltb_spec (Z.of_nat (List.length (splitOn "/"%char path)) - 1) 0);
          [lia|].
        destruct (nth_error (splitOn "/"%char path) _) as [idPart|] eqn:Hid.
        2: { apply nth_error_None in Hid. lia. }
        destruct (nth_error (splitOn "/"%char path)
                    (Z.to_nat (Z.of_nat (List.length (splitOn "/"%char path)) - 1)))
          as [token|] eqn:Htok.
        2: { apply nth_error_None in Htok. lia. }
        destruct (snowflakeParse idPart); split; try done;
          intros (_ & path' & [= <-] & Hno); congruence.
      * rewrite (splitOn_no_sep _ _ Hslash). simpl.
        split; [|done]. intros _. split; [done|]. by exists path.
    + split; [done|]. intros (_ & path & Hp & _). congruence.
  - split; [done|]. intros (Hset' & _).
    apply nonempty_length in Hset'. congruence.
Qed.

(** X10: for a URL whose path ends in [/<id>/<token>], neither part
    holding a slash, [parseDiscordWebhookUrl] hands the part before the
    last to [snowflake.Parse] and builds the client from the parsed id and
    the last part, or returns the error of [snowflake.Parse]. *)
Theorem parseDiscordWebhookUrl_id_token urlEnv front idPart token :
  Getenv urlEnv <> "" ->
  urlParse (Getenv urlEnv)
    = inl (front +:+ String "/"%char (idPart +:+ String "/"%char token)) ->
  hasChar "/"%char idPart = false ->
  hasChar "/"%char token = false ->
  parseDiscordWebhookUrl urlEnv =
  match snowflakeParse idPart with
  | inl id => Returned (Some {| webhookId := id; webhookToken := token |})
  | inr err => Errored err
  end.
Proof.
  intros Hset Hparse Hid Htok. unfold parseDiscordWebhookUrl.
  apply nonempty_length in Hset. rewrite Hset, Hparse.
  rewrite !splitOn_app, (splitOn_no_sep _ idPart Hid),
    (splitOn_no_sep _ token Htok).
  destruct (indexAt_last_two (splitOn "/"%char front) idPart token) as [Ha Hb].
  simpl in Ha, Hb. simpl. rewrite Ha, Hb. reflexivity.
Qed.

Lemma sentTo_app (a b : list Output) :
  sentTo (a ++ b) = (sentTo a ++ sentTo b)%list.
Proof. unfold sentTo. apply flat_map_app. Qed.

Lemma getNotifColor_logs_only jobState :
  sentTo (snd (getNotifColor jobState)) = [].
Proof. unfold getNotifColor. by destruct (Stage jobState). Qed.

Lemma sendNotif_sentTo title fields color channel :
  sentTo (sendNotif title fields color channel) = [channel].
Proof.
  unfold sendNotif. simpl. by destruct (CreateMessage _ _).
Qed.

Lemma notifyChannel_sentTo n jobState channel w outs w' :
  notifyChannel n jobState channel w = Ok outs w' ->
  sentTo outs = configured [channel].
Proof.
  unfold notifyChannel. destruct channel as [c|].
  - unfold bind, orPanic.
    destruct (getNotifTitle n jobState) as [title|]; [|discriminate].
    simpl. destruct (getNotifFields n jobState w) as [fields w1|]; [|discriminate].
    pose proof (getNotifColor_logs_only jobState) as Hlog.
    destruct (getNotifColor jobState) as [color logged]. simpl in Hlog.
    unfold ret. intros [= <- <-].
    by rewrite sentTo_app, Hlog, sendNotif_sentTo.
  - unfold ret. by intros [= <- <-].
Qed.

Lemma forEach_sentTo {A : Type} (body : A -> M (list Output))
    (target : A -> list WebhookClient) (l : list A) :
  (forall a w outs w', body a w = Ok outs w' -> sentTo outs = target a) ->
  forall w outs w',
    forEach body l w = Ok outs w' -> sentTo outs = flat_map target l.
Proof.
  intros Hbody. induction l as [|a l IH]; intros w outs w'; simpl.
  - unfold ret. by intros [= <- <-].
  - unfold bind.
    destruct (body a w) as [first w1|] eqn:Hfirst; [|discriminate].
    destruct (forEach body l w1) as [others w2|] eqn:Hothers; [|discriminate].
    unfold ret. intros [= <- <-].
    by rewrite sentTo_app, (Hbody _ _ _ _ Hfirst), (IH _ _ _ Hothers).
Qed.

Lemma forEach_idle {A : Type} (body : A -> M (list Output)) (l : list A) :
  (forall a, In a l -> forall w, body a w = Ok [] w) ->
  forall w, forEach body l w = Ok [] w.
Proof.
  induction l as [|a l IH]; intros Hbody w; simpl; [reflexivity|].
  unfold bind. rewrite Hbody by (by left).
  rewrite IH by (intros; apply Hbody; by right). reflexivity.
Qed.

Lemma configured_nil channels :
  configured channels = [] -> forall c, In c channels -> c = None.
Proof.
  induction channels as [|x l IH]; simpl; [done|].
  destruct x as [x|]; simpl; [done|].
  intros Hl c [<- | Hin]; [done | by apply IH].
Qed.

Lemma configured_each (l : list (option WebhookClient)) :
  flat_map (fun c => configured [c]) l = configured l.
Proof.
  induction l as [|c l IH]; [done|].
  change (flat_map (fun c => configured [c]) (c :: l))
    with (configured [c] ++ flat_map (fun c => configured [c]) l)%list.
  rewrite IH. by destruct c.
Qed.

Lemma channels_idle n jobState channels w :
  (forall c, In c channels -> c = None) ->
  forEach (notifyChannel n jobState) channels w = Ok [] w.
Proof.
  intros Hnone. apply forEach_idle.
  intros channel Hch w1. by rewrite (Hnone channel Hch).
Qed.

(** X11: where a notification goes. A job that is not a deployment goes
    to the test webhook alone; a deployment goes to the deployments
    webhook and the test webhook, and between them to the community
    webhook unless the environment is Dev or QA. The test webhook is
    always the last. *)
Theorem getNotifChannels_routing n hooks jobState :
  (Type_ jobState <> JobType_Deploy ->
   getNotifChannels n hooks jobState = [testWebhook hooks]) /\
  (Type_ jobState = JobType_Deploy ->
   Notifs.env n = EnvType_Dev \/ Notifs.env n = EnvType_Qa ->
   getNotifChannels n hooks jobState
     = [deploymentsWebhook hooks; testWebhook hooks]) /\
  (Type_ jobState = JobType_Deploy ->
   Notifs.env n <> EnvType_Dev -> Notifs.env n <> EnvType_Qa ->
   getNotifChannels n hooks jobState
     = [deploymentsWebhook hooks; communityWebhook hooks; testWebhook hooks]) /\
  last (getNotifChannels n hooks jobState) = Some (testWebhook hooks).
Proof.
  unfold getNotifChannels.
  destruct (decide (Type_ jobState = JobType_Deploy)) as [Hdep|Hdep].
  - destruct (String.eqb_spec (Notifs.env n) EnvType_Dev) as [Hdev|Hdev];
      destruct (String.eqb_spec (Notifs.env n) EnvType_Qa) as [Hqa|Hqa];
      simpl; repeat split; intros; try reflexivity; try congruence;
      try tauto.
    all: match goal with Hor : _ \/ _ |- _ => destruct Hor; congruence end.
  - simpl. repeat split; intros; try reflexivity; congruence.
Qed.

(** X12: the title of a notification. Building it panics exactly for a
    deployment whose component parameter is missing or not a string. When
    it is built it ends with the name of the job, a space and the stage in
    upper case; a deployment alone gets a prefix; and the name of the job
    is preceded by the word for manual runs exactly when the manual
    parameter is the boolean [true] (any other value, of any type, is
    ignored without panic). *)
Theorem getNotifTitle_shape n jobState :
  (getNotifTitle n jobState = None <->
   Type_ jobState = JobType_Deploy /\
   assertString (Params jobState !! JobParam_Component) = None) /\
  (forall title, getNotifTitle n jobState = Some title ->
   exists pfx name,
     title = pfx +:+ name +:+ " " +:+ ToUpper (JobStageString (Stage jobState)) /\
     (Type_ jobState <> JobType_Deploy -> pfx = "") /\
     (Params jobState !! JobParam_Manual = Some (VBool true) ->
      name = JobParam_Manual +:+ " " +:+ JobName (Type_ jobState)) /\
     (Params jobState !! JobParam_Manual <> Some (VBool true) ->
      name = JobName (Type_ jobState))).
Proof.
  unfold getNotifTitle, jobTitlePfx. split.
  - destruct (decide (Type_ jobState = JobType_Deploy)) as [Hdep|Hdep].
    + destruct (assertString _); split; try done. by intros [_ ?].
    + split; [done|]. by intros [? _].
  - intros title Htitle.
    assert (Hname :
      (Params jobState !! JobParam_Manual = Some (VBool true) ->
       titleJobName jobState = JobParam_Manual +:+ " " +:+ JobName (Type_ jobState)) /\
      (Params jobState !! JobParam_Manual <> Some (VBool true) ->
       titleJobName jobState = JobName (Type_ jobState))).
    { unfold titleJobName.
      destruct (Params jobState !! JobParam_Manual) as [[x|x|[|]|x]|];
        split; intros; try reflexivity; congruence. }
    destruct (decide (Type_ jobState = JobType_Deploy)) as [Hdep|Hdep].
    + destruct (assertString _) as [component|]; [|discriminate].
      injection Htitle as <-. eexists _, _. split; [reflexivity|].
      split; [done|]. exact Hname.
    + injection Htitle as <-. eexists _, _. split; [reflexivity|].
      split; [done|]. exact Hname.
Qed.

(** X13: the colour of a notification. It is the alert colour exactly
    for the stages [Failed] and [Dequeued], the ok colour exactly for
    [Completed]; [Dequeued] is the one stage the [switch] has no case for,
    and the only one that writes the unknown-stage line to the log. *)
Theorem getNotifColor_table jobState :
  (fst (getNotifColor jobState) = DiscordColor_Alert <->
   Stage jobState = JobStage_Failed \/ Stage jobState = JobStage_Dequeued) /\
  (fst (getNotifColor jobState) = DiscordColor_Ok <->
   Stage jobState = JobStage_Completed) /\
  (snd (getNotifColor jobState) <> [] <-> Stage jobState = JobStage_Dequeued) /\
  (Stage jobState = JobStage_Dequeued ->
   snd (getNotifColor jobState)
     = [OutLog ("sendNotif: unknown job stage: " +:+ PrintJob jobState)]).
Proof.
  unfold getNotifColor.
  destruct (Stage jobState); simpl; repeat split; intros; try done;
    try (destruct_or?; done).
  all: try (by left); try (by right).
Qed.

(** X14: a job none of whose channels is configured costs nothing:
    [NotifyJob] sends no message, writes no log line, does not read the
    database or the clock, and cannot panic, whatever the parameters of
    the jobs. *)
Theorem NotifyJob_idle n hooks jobs w :
  (forall jobState, In jobState jobs ->
     configured (getNotifChannels n hooks jobState) = []) ->
  NotifyJob n hooks jobs w = Ok [] w.
Proof.
  intros Hnone. unfold NotifyJob. apply forEach_idle.
  intros jobState Hin w0. apply channels_idle.
  apply configured_nil, Hnone, Hin.
Qed.

(** X15: when [NotifyJob] returns, it has sent one message for each job
    to each of its configured channels, in the order of the jobs and of
    their channels, and to no other; an error answered by Discord to one
    message does not keep the later ones from being sent. *)
Theorem NotifyJob_sends n hooks jobs w outs w' :
  NotifyJob n hooks jobs w = Ok outs w' ->
  sentTo outs =
  flat_map (fun jobState => configured (getNotifChannels n hooks jobState)) jobs.
Proof.
  unfold NotifyJob. apply forEach_sentTo.
  intros jobState w0 outs0 w0' Hinner.
  rewrite <- configured_each.
  eapply forEach_sentTo; [|exact Hinner].
  intros channel w1 outs1 w1'. apply notifyChannel_sentTo.
Qed.

(** X16: with none of the three webhook variables set, [NewJobNotifs]
    succeeds with a notifier that has no webhook and takes its
    environment from [ENV]; this notifier is silent: [NotifyJob] on any
    jobs does nothing and cannot panic. *)
Theorem NewJobNotifs_unset db cache :
  Getenv "DISCORD_DEPLOYMENTS_WEBHOOK" = "" ->
  Getenv "DISCORD_COMMUNITY_NODES_WEBHOOK" = "" ->
  Getenv "DISCORD_TEST_WEBHOOK" = "" ->
  exists n hooks,
    NewJobNotifs db cache = Returned (n, hooks) /\
    Notifs.db n = db /\ Notifs.cache n = cache /\
    Notifs.env n = Getenv "ENV" /\
    hooks = {| deploymentsWebhook := None; communityWebhook := None;
               testWebhook := None |} /\
    forall jobs w, NotifyJob n hooks jobs w = Ok [] w.
Proof.
  intros Hd Hc Ht. unfold NewJobNotifs, parseDiscordWebhookUrl.
  rewrite Hd, Hc, Ht. simpl.
  eexists _, _. split; [reflexivity|]. repeat split.
  intros jobs w. unfold NotifyJob. apply forEach_idle.
  intros jobState _ w0. apply channels_idle.
  intros c. unfold getNotifChannels; simpl.
  destruct (decide (Type_ jobState = JobType_Deploy));
    [destruct (negb _ && negb _)|]; simpl; intuition.
Qed.

Lemma after_after_notifs n m evs evs' w :
  after n evs (after m evs' w) = after (n + m) (evs' ++ evs)%list w.
Proof.
  unfold after; simpl. f_equal; [lia | by rewrite app_assoc].
Qed.

Lemma getComponentMsg_text component sha w :
  getComponentMsg component sha w =
  if (12 <=? String.length sha)%nat then Ok (componentMsg component sha) w
  else Panicked SliceBoundsOutOfRange.
Proof.
  unfold getComponentMsg, sliceTo, bind, componentMsg.
  by destruct (12 <=? String.length sha)%nat.
Qed.

Lemma getDeployHashes_run n jobState w :
  getDeployHashes n jobState w =
  match GetDeployHashes (db n) with
  | (_, Some _) => Ok "" (after 0 [EvGetDeployHashes] w)
  | (hashes, None) =>
    match overwriteJobHash jobState hashes with
    | None => Panicked (overwritePanic jobState)
    | Some used =>
      if hashesLongEnough used
      then Ok (deployMessage used) (after 0 [EvGetDeployHashes] w)
      else Panicked SliceBoundsOutOfRange
    end
  end.
Proof.
  unfold getDeployHashes, bind at 1, emit.
  destruct (GetDeployHashes (db n)) as [hashes [err|]]; [reflexivity|].
  unfold bind at 1, orPanic.
  destruct (overwriteJobHash jobState hashes) as [used|]; [|reflexivity].
  unfold ret at 1, hashesLongEnough, forallb, bind.
  rewrite getComponentMsg_text.
  destruct (12 <=? String.length (hashOf used DeployComponent_Ceramic))%nat;
    [|reflexivity].
  cbv beta iota. rewrite getComponentMsg_text.
  destruct (12 <=? String.length (hashOf used DeployComponent_Cas))%nat;
    [|reflexivity].
  cbv beta iota. rewrite getComponentMsg_text.
  destruct (12 <=? String.length (hashOf used DeployComponent_Ipfs))%nat;
    reflexivity.
Qed.

Lemma deployMessage_nonempty used :
  (0 <? String.length (deployMessage used))%nat = true.
Proof.
  unfold deployMessage. rewrite string_length_app.
  rewrite (string_length_app newline). apply Nat.ltb_lt. simpl. lia.
Qed.

Lemma getNotifFields_run n jobState w :
  getNotifFields n jobState w =
  match getDeployHashes n jobState w with
  | Panicked p => Panicked p
  | Ok text w1 =>
    Ok ([jobIdField jobState] ++
        (if (0 <? String.length text)%nat then [commitHashesField text] else []) ++
        [timeField (clock w1 (reads w1))] ++
        getActiveJobs n jobState)%list
       (after 1 [] w1)
  end.
Proof.
  unfold getNotifFields, bind at 1.
  destruct (getDeployHashes n jobState w) as [text w1|p]; [|reflexivity].
  unfold bind, Now, ret, after; simpl. rewrite app_nil_r.
  destruct (0 <? String.length text)%nat;
    destruct (getActiveJobs n jobState); reflexivity.
Qed.

Lemma registered_In (c : Cache) (js : JobState) :
  In js (snd <$> map_to_list (jobs c)) <-> exists k, jobs c !! k = Some js.
Proof.
  rewrite <- list_elem_of_In, list_elem_of_fmap. split.
  - intros ([k v] & -> & Hin). exists k. by apply elem_of_map_to_list.
  - intros (k & Hk). exists (k, js). split; [done|].
    by apply elem_of_map_to_list.
Qed.

Lemma listedJobs_In n jobState jobType js :
  In js (listedJobs n jobState jobType) <->
  (exists k, jobs (cache n) !! k = Some js) /\
  IsActiveJob js = true /\ Type_ js = jobType /\ Id js <> Id jobState.
Proof.
  unfold listedJobs, JobsByMatcher.
  rewrite !filter_In, registered_In, andb_true_iff, !bool_decide_eq_true.
  tauto.
Qed.

Lemma getActiveJobsByType_run n jobState jobType :
  getActiveJobsByType n jobState jobType =
  ({| Name := NotifField jobType +:+ ":";
      Value := jobLines (listedJobs n jobState jobType) |},
   match listedJobs n jobState jobType with
   | [] => false
   | _ :: _ => true
   end).
Proof.
  unfold getActiveJobsByType. rewrite fold_left_lines. simpl.
  fold (listedJobs n jobState jobType).
  fold (jobLines (listedJobs n jobState jobType)).
  destruct (listedJobs n jobState jobType) as [|js l]; [reflexivity|].
  f_equal. simpl. unfold jobLine.
  rewrite !string_length_app. simpl. apply Nat.ltb_lt. lia.
Qed.

Lemma jobLines_nonempty js l : jobLines (js :: l) <> "".
Proof.
  intros Hempty.
  assert (Hlen : String.length (jobLines (js :: l)) = 0%nat) by by rewrite Hempty.
  simpl in Hlen. unfold jobLine in Hlen.
  rewrite !string_length_app in Hlen. simpl in Hlen. lia.
Qed.

Lemma appendFound_nil fields r :
  appendFound fields r = [] <-> fields = [] /\ snd r = false.
Proof.
  unfold appendFound. destruct (snd r); split.
  - intros Happ. by apply app_eq_nil in Happ as [_ ?].
  - by intros [_ ?].
  - done.
  - by intros [? _].
Qed.

Lemma appendFound_Forall (P : EmbedField -> Prop) fields r :
  Forall P fields -> (snd r = true -> P (fst r)) ->
  Forall P (appendFound fields r).
Proof.
  intros Hfields Hr. unfold appendFound.
  destruct (snd r); [|done].
  apply Forall_app. split; [done|]. constructor; [by apply Hr | constructor].
Qed.

Lemma appendFound_length fields r :
  (List.length (appendFound fields r) <= S (List.length fields))%nat.
Proof.
  unfold appendFound. destruct (snd r); [|lia].
  rewrite length_app. simpl. lia.
Qed.

Lemma getActiveJobs_length n jobState :
  (List.length (getActiveJobs n jobState) <= 4)%nat.
Proof.
  unfold getActiveJobs.
  repeat (etransitivity; [apply appendFound_length|]; apply le_n_S).
  simpl. lia.
Qed.

(** X17: the fields of the jobs in progress. There are at most four,
    none with an empty text; and there is none at all exactly when no
    registered job other than the one notified about is active and of one
    of the four types the function goes through (deployments, anchors,
    end-to-end tests, smoke tests), so that an active job alone in the
    registry reports no job in progress, and an active job of any other
    type is never reported. *)
Theorem getActiveJobs_others n jobState :
  (List.length (getActiveJobs n jobState) <= 4)%nat /\
  Forall (fun field => Value field <> "") (getActiveJobs n jobState) /\
  (getActiveJobs n jobState = [] <->
   forall k js, jobs (cache n) !! k = Some js -> IsActiveJob js = true ->
                Type_ js = JobType_Deploy \/ Type_ js = JobType_Anchor \/
                Type_ js = JobType_TestE2E \/ Type_ js = JobType_TestSmoke ->
                Id js = Id jobState).
Proof.
  split; [apply getActiveJobs_length|]. split.
  - unfold getActiveJobs.
    repeat apply appendFound_Forall; try constructor;
      rewrite getActiveJobsByType_run; simpl;
      (destruct (listedJobs n jobState _) as [|js l]; [done|]);
      intros _; apply jobLines_nonempty.
  - assert (Hnone : forall jobType,
              snd (getActiveJobsByType n jobState jobType) = false <->
              listedJobs n jobState jobType = []).
    { intros jobType. rewrite getActiveJobsByType_run. simpl.
      by destruct (listedJobs n jobState jobType). }
    unfold getActiveJobs. rewrite !appendFound_nil, !Hnone. split.
    + intros ((((_ & Hd) & Ha) & He) & Hs) k js Hk Hact Hty.
      destruct (decide (Id js = Id jobState)) as [|Hne]; [done|].
      assert (Hin : In js (listedJobs n jobState (Type_ js))).
      { apply listedJobs_In. eauto. }
      destruct Hty as [Hty | [Hty | [Hty | Hty]]]; rewrite Hty in Hin;
        [rewrite Hd in Hin | rewrite Ha in Hin
        | rewrite He in Hin | rewrite Hs in Hin]; destruct Hin.
    + intros Hall.
      assert (Hempty : forall jobType,
                jobType = JobType_Deploy \/ jobType = JobType_Anchor \/
                jobType = JobType_TestE2E \/ jobType = JobType_TestSmoke ->
                listedJobs n jobState jobType = []).
      { intros jobType Hty.
        destruct (listedJobs n jobState jobType) as [|js l] eqn:Hl; [done|].
        assert (Hin : In js (listedJobs n jobState jobType))
          by (rewrite Hl; by left).
        apply listedJobs_In in Hin as ((k & Hk) & Hact & Htyjs & Hne).
        destruct Hne. eapply Hall; [exact Hk | exact Hact |].
        by rewrite Htyjs. }
      rewrite !Hempty by tauto. done.
Qed.

Lemma overwriteJobHash_None jobState hashes :
  overwriteJobHash jobState hashes = None <->
  Type_ jobState = JobType_Deploy /\
  (assertString (Params jobState !! JobParam_Sha) = None \/
   exists sha,
     Params jobState !! JobParam_Sha = Some (VString sha) /\
     matchesCommitHashRegex sha = true /\
     (assertString (Params jobState !! JobParam_Component) = None \/
      (exists component,
         Params jobState !! JobParam_Component = Some (VString component)) /\
      hashes = NilMap)).
Proof.
  unfold overwriteJobHash.
  destruct (decide (Type_ jobState = JobType_Deploy)) as [Hdep|Hdep].
  2: { split; [done|]. by intros [? _]. }
  destruct (Params jobState !! JobParam_Sha) as [[sha| | |]|] eqn:Hsha; simpl.
  2-5: split; [intros _; split; [done|]; by left|done].
  destruct (matchesCommitHashRegex sha) eqn:Hvalid.
  2: { split; [done|].
       intros (_ & [? | (sha' & [= <-] & Hv & _)]); congruence. }
  destruct (Params jobState !! JobParam_Component)
    as [[comp| | |]|] eqn:Hcomp; simpl.
  2-5: split; [|done]; intros _; split; [done|]; right; exists sha;
       split; [done|]; split; [done|]; by left.
  rewrite GoMapFacts.assign_nil. split.
  - intros ->. split; [done|]. right. exists sha.
    split; [done|]. split; [done|]. right. split; [by exists comp | done].
  - intros (_ & [? | (sha' & _ & _ & [? | [_ ?]])]); done.
Qed.

(** X18: when building the fields of a notification panics. It does so
    exactly when the database answers with a mapping and one of these
    holds. The job is a deployment without a string under the hash
    parameter: a failed type assertion. The job is a deployment with a
    hash the pattern accepts and without a string under the component
    parameter: a failed type assertion. The job is a deployment with an
    accepted hash and a component, and the mapping is nil: an assignment
    to an entry of a nil map. Or, the override done, one of the three
    components is left with a hash of fewer than twelve bytes: a slice
    out of range. When the database answers with an error nothing can
    panic. *)
Theorem getNotifFields_panics_iff n jobState w p :
  getNotifFields n jobState w = Panicked p <->
  exists hashes,
    GetDeployHashes (db n) = (hashes, None) /\
    ((Type_ jobState = JobType_Deploy /\
      assertString (Params jobState !! JobParam_Sha) = None /\
      p = InterfaceConversion) \/
     (Type_ jobState = JobType_Deploy /\
      (exists sha,
         Params jobState !! JobParam_Sha = Some (VString sha) /\
         matchesCommitHashRegex sha = true) /\
      assertString (Params jobState !! JobParam_Component) = None /\
      p = InterfaceConversion) \/
     (Type_ jobState = JobType_Deploy /\
      (exists sha,
         Params jobState !! JobParam_Sha = Some (VString sha) /\
         matchesCommitHashRegex sha = true) /\
      (exists component,
         Params jobState !! JobParam_Component = Some (VString component)) /\
      hashes = NilMap /\
      p = AssignmentToNilMap) \/
     (exists used,
        overwriteJobHash jobState hashes = Some used /\
        hashesLongEnough used = false /\
        p = SliceBoundsOutOfRange)).
Proof.
  rewrite getNotifFields_run, getDeployHashes_run.
  destruct (GetDeployHashes (db n)) as [hashes [err|]].
  { split; [done|]. intros (h & Heq & _). congruence. }
  destruct (overwriteJobHash jobState hashes) as [used|] eqn:Hover.
  - assert (Hsome : ~ (overwriteJobHash jobState hashes = None)) by congruence.
    rewrite overwriteJobHash_None in Hsome.
    destruct (hashesLongEnough used) eqn:Hlong.
    + split; [done|].
      intros (h & [= <-] & [(Hd & Hs & _) | [(Hd & (sha & Hs & Hv) & Hc & _)
        | [(Hd & (sha & Hs & Hv) & Hc & Hn & _) | (u & Hu0 & Hu & _)]]]).
      * destruct Hsome. split; [done|]. by left.
      * destruct Hsome. split; [done|]. right. exists sha.
        split; [done|]. split; [done|]. by left.
      * destruct Hsome. split; [done|]. right. exists sha.
        split; [done|]. split; [done|]. by right.
      * congruence.
    + split.
      * intros [= <-]. exists hashes. split; [done|].
        right. right. right. by exists used.
      * intros (h & [= <-] & [(Hd & Hs & _) | [(Hd & (sha & Hs & Hv) & Hc & _)
          | [(Hd & (sha & Hs & Hv) & Hc & Hn & _) | (u & _ & _ & ->)]]]).
        -- destruct Hsome. split; [done|]. by left.
        -- destruct Hsome. split; [done|]. right. exists sha.
           split; [done|]. split; [done|]. by left.
        -- destruct Hsome. split; [done|]. right. exists sha.
           split; [done|]. split; [done|]. by right.
        -- reflexivity.
  - pose proof (proj1 (overwriteJobHash_None jobState hashes) Hover)
      as (Hdep & Hwhy).
    split.
    + intros [= <-]. exists hashes. split; [done|].
      unfold overwritePanic.
      destruct Hwhy as [Hs | (sha & Hs & Hv & [Hc | [(comp & Hc) Hn]])].
      * rewrite Hs. left. by repeat split.
      * rewrite Hs, Hc. simpl. right. left. repeat split; try done.
        by exists sha.
      * rewrite Hs, Hc. simpl. right. right. left. repeat split; try done.
        -- by exists sha.
        -- by exists comp.
    + intros (h & [= <-] & [(Hd & Hs & ->) | [(Hd & (sha & Hs & Hv) & Hc & ->)
        | [(Hd & (sha & Hs & Hv) & (comp & Hc) & Hn & ->) | (u & Hu & _)]]]).
      * unfold overwritePanic. by rewrite Hs.
      * unfold overwritePanic. rewrite Hs. simpl. by rewrite Hc.
      * unfold overwritePanic. rewrite Hs, Hc. reflexivity.
      * congruence.
Qed.

(** X19: the fields of a notification, when they are built. The first is
    the id of the job; then, exactly when the database gave the hashes,
    one field with the three component messages, which is never empty;
    then the time of the one reading of the clock; then the fields of the
    jobs in progress: seven fields at most. The database was asked
    once. *)
Theorem getNotifFields_shape n jobState w fields w' :
  getNotifFields n jobState w = Ok fields w' ->
  w' = after 1 [EvGetDeployHashes] w /\
  (List.length fields <= 7)%nat /\
  exists hashFields,
    fields = ([jobIdField jobState] ++ hashFields ++
              [timeField (clock w (reads w))] ++
              getActiveJobs n jobState)%list /\
    match GetDeployHashes (db n) with
    | (_, Some _) => hashFields = []
    | (hashes, None) =>
      exists used,
        overwriteJobHash jobState hashes = Some used /\
        hashesLongEnough used = true /\
        hashFields = [commitHashesField (deployMessage used)] /\
        deployMessage used <> ""
    end.
Proof.
  rewrite getNotifFields_run, getDeployHashes_run.
  pose proof (getActiveJobs_length n jobState) as Hactive.
  destruct (GetDeployHashes (db n)) as [hashes [err|]].
  - rewrite after_after_notifs. intros [= <- <-].
    split; [reflexivity|]. split; [simpl; lia|].
    exists []. split; reflexivity.
  - destruct (overwriteJobHash jobState hashes) as [used|]; [|discriminate].
    destruct (hashesLongEnough used) eqn:Hlong; [|discriminate].
    rewrite after_after_notifs, deployMessage_nonempty. intros [= <- <-].
    split; [reflexivity|]. split; [simpl; lia|].
    exists [commitHashesField (deployMessage used)].
    split; [reflexivity|]. exists used.
    split; [reflexivity|]. split; [exact Hlong|]. split; [reflexivity|].
    intros Hempty. pose proof (deployMessage_nonempty used) as Hlen.
    rewrite Hempty in Hlen. discriminate.
Qed.

(** X20: what the override of the job's own hash can change. For a job
    that is not a deployment the mapping from the database is used as it
    is; for a deployment the hash of at most one component differs from
    the database's, the component named in the job's parameters, and then
    it is the job's own hash, which the commit-hash pattern accepts. An
    own hash the pattern rejects changes nothing, and the component
    parameter is then not even looked at. *)
Theorem overwriteJobHash_frame jobState hashes used :
  overwriteJobHash jobState hashes = Some used ->
  (Type_ jobState <> JobType_Deploy -> used = hashes) /\
  (forall sha, Params jobState !! JobParam_Sha = Some (VString sha) ->
               matchesCommitHashRegex sha = false -> used = hashes) /\
  (forall component,
     hashOf used component <> hashOf hashes component ->
     Type_ jobState = JobType_Deploy /\
     Params jobState !! JobParam_Component = Some (VString component) /\
     Params jobState !! JobParam_Sha = Some (VString (hashOf used component)) /\
     matchesCommitHashRegex (hashOf used component) = true).
Proof.
  unfold overwriteJobHash. intros Hover.
  destruct (decide (Type_ jobState = JobType_Deploy)) as [Hdep|Hdep].
  2: { injection Hover as <-. repeat split; try done. }
  destruct (Params jobState !! JobParam_Sha) as [[sha| | |]|] eqn:Hsha;
    simpl in Hover; try discriminate.
  destruct (matchesCommitHashRegex sha) eqn:Hvalid.
  2: { injection Hover as <-. repeat split; try done. }
  destruct (Params jobState !! JobParam_Component) as [[comp| | |]|] eqn:Hcomp;
    simpl in Hover; try discriminate.
  destruct hashes as [|entries]; simpl in Hover; [discriminate|].
  injection Hover as <-. split; [done|]. split.
  - intros sha' [= <-] Hno. congruence.
  - intros component Hdiff.
    unfold hashOf, lookup, GoMap_lookup in *; simpl in *.
    destruct (decide (comp = component)) as [<-|Hne].
    + rewrite fin_maps.lookup_insert_eq. simpl. by repeat split.
    + rewrite fin_maps.lookup_insert_ne in Hdiff by done. done.
Qed.

End Facts.

Import Samples DiscordSamples.

Lemma parseDiscordWebhookUrl_panics_iff_witness :
  @parseDiscordWebhookUrl externals "DISCORD_DEPLOYMENTS_WEBHOOK"
    = IndexOutOfRange.
Proof.
  apply (parseDiscordWebhookUrl_panics_iff (H0 := externals)).
  split; [discriminate|]. exists "". split; reflexivity.
Defined.

Lemma parseDiscordWebhookUrl_id_token_witness :
  @parseDiscordWebhookUrl externals "DISCORD_TEST_WEBHOOK"
    = Returned (Some testClient).
Proof.
  exact (parseDiscordWebhookUrl_id_token (H0 := externals)
           "DISCORD_TEST_WEBHOOK" "/api/webhooks" "42" "secret"
           ltac:(discriminate) eq_refl eq_refl eq_refl).
Defined.

Lemma getNotifChannels_routing_witness :
  let n := notifs fullHashes in
  let deploy := deployJob "0123456789abcdef0123456789abcdef01234567" in
  Notifs.env n = @EnvType_Qa externals /\
  @getNotifChannels externals n testOnly deploy = [None; Some testClient].
Proof.
  intros n deploy. split; [reflexivity|].
  apply (proj1 (proj2 (getNotifChannels_routing (H0 := externals)
                         n testOnly deploy))).
  - reflexivity.
  - by right.
Defined.

Lemma getNotifTitle_shape_witness :
  let n := notifs fullHashes in
  let job := {| Stage := JobStage_Started; Ts := 0; Id := "job-1";
                Type_ := JobType_Deploy; Params := {[ "component" := VBool true ]} |} in
  @getNotifTitle manager externals n job = None.
Proof.
  intros n job.
  apply (proj1 (getNotifTitle_shape (H := manager) (H0 := externals) n job)).
  split; reflexivity.
Defined.

Lemma getNotifColor_table_witness :
  let job := jobState "job-1" JobType_TestSmoke JobStage_Dequeued 0 in
  fst (@getNotifColor manager job) = DiscordColor_Alert /\
  snd (@getNotifColor manager job) = [OutLog "sendNotif: unknown job stage: job-1"].
Proof.
  intros job.
  destruct (getNotifColor_table (H := manager) job) as (Ha & _ & _ & Hlog).
  split; [apply Ha; by right | apply Hlog; reflexivity].
Defined.

Lemma NotifyJob_idle_witness :
  let n := notifs ∅ in
  let job := jobState "job-2" JobType_TestSmoke JobStage_Waiting 20 in
  @NotifyJob manager externals n deployOnly [job] (worldAt 1000)
    = Ok [] (worldAt 1000).
Proof.
  intros n job.
  apply (NotifyJob_idle (H := manager) (H0 := externals)).
  intros jobState' [<- | []]. reflexivity.
Defined.

Lemma NotifyJob_sends_witness :
  let n := notifs fullHashes in
  let job := jobState "job-2" JobType_TestSmoke JobStage_Waiting 20 in
  exists outs w',
    @NotifyJob manager externals n testOnly [job] (worldAt 1000) = Ok outs w' /\
    sentTo outs = [testClient].
Proof.
  intros n job.
  destruct (@NotifyJob manager externals n testOnly [job] (worldAt 1000))
    as [outs w'|p] eqn:Hrun.
  - exists outs, w'. split; [reflexivity|].
    exact (NotifyJob_sends (H := manager) (H0 := externals) n testOnly [job]
             (worldAt 1000) outs w' Hrun).
  - vm_compute in Hrun. discriminate.
Defined.

Lemma NewJobNotifs_unset_witness :
  exists n hooks,
    @NewJobNotifs unset {| GetDeployHashes := (∅, None) |} registry
      = Returned (n, hooks) /\
    Notifs.db n = {| GetDeployHashes := (∅, None) |} /\
    Notifs.cache n = registry /\
    Notifs.env n = @Getenv unset "ENV" /\
    hooks = {| deploymentsWebhook := None; communityWebhook := None;
               testWebhook := None |} /\
    forall jobs w, @NotifyJob manager unset n hooks jobs w = Ok [] w.
Proof.
  apply (NewJobNotifs_unset (H := manager) (H0 := unset)); reflexivity.
Defined.

Lemma getActiveJobs_others_witness :
  let job := jobState "job-2" JobType_TestSmoke JobStage_Waiting 20 in
  let n := {| db := {| GetDeployHashes := (∅, None) |};
              cache := WriteJob job {| jobs := ∅ |};
              Notifs.env := "qa" |} in
  @getActiveJobs manager n job = [].
Proof.
  intros job n.
  apply (proj2 (proj2 (getActiveJobs_others (H := manager) n job))).
  intros k js. simpl. rewrite lookup_insert. case_decide.
  - by intros [= <-].
  - by rewrite lookup_empty.
Defined.

Lemma getNotifFields_panics_iff_witness :
  let hashes : GoMap string :=
    {[ "ceramic" := "0123456789abcdef0123456789abcdef01234567";
       "cas" := "89abcdef" ]} in
  let job := jobState "job-2" JobType_TestSmoke JobStage_Waiting 20 in
  let deploy := deployJob "aaaaaaaaaabbbbbbbbbbccccccccccdddddddddd" in
  @getNotifFields manager (notifs hashes) job (worldAt 1000)
    = Panicked SliceBoundsOutOfRange /\
  @getNotifFields manager (notifs NilMap) deploy (worldAt 1000)
    = Panicked AssignmentToNilMap.
Proof.
  intros hashes job deploy. split.
  - apply (getNotifFields_panics_iff (H := manager)).
    exists hashes. split; [reflexivity|]. right. right. right.
    exists hashes. split; [reflexivity|]. split; [vm_compute|]; reflexivity.
  - apply (getNotifFields_panics_iff (H := manager)).
    exists NilMap. split; [reflexivity|]. right. right. left.
    split; [reflexivity|].
    split; [by exists "aaaaaaaaaabbbbbbbbbbccccccccccdddddddddd"|].
    split; [by exists "cas"|]. by split.
Defined.

Lemma getNotifFields_shape_witness :
  let job := deployJob "not a hash" in
  let w := worldAt 1000 in
  exists fields w',
    @getNotifFields manager failingDb job w = Ok fields w' /\
    w' = after 1 [EvGetDeployHashes] w /\
    fields = ([@jobIdField manager job; @timeField manager 1000] ++
              @getActiveJobs manager failingDb job)%list.
Proof.
  intros job w.
  destruct (@getNotifFields manager failingDb job w) as [fields w'|p] eqn:Hrun.
  - exists fields, w'. split; [reflexivity|].
    destruct (getNotifFields_shape (H := manager) failingDb job w fields w' Hrun)
      as (Hw & _ & hashFields & Hfields & Hnone).
    simpl in Hnone. subst hashFields. split; [exact Hw | exact Hfields].
  - vm_compute in Hrun. discriminate.
Defined.

Lemma overwriteJobHash_frame_witness :
  let sha := "aaaaaaaaaabbbbbbbbbbccccccccccdddddddddd" in
  let used := <[ "cas" := sha ]> fullHashes in
  @overwriteJobHash manager (deployJob sha) fullHashes = Some used /\
  hashOf used "cas" <> hashOf fullHashes "cas" /\
  Params (deployJob sha) !! @JobParam_Component manager = Some (VString "cas") /\
  @matchesCommitHashRegex manager (hashOf used "cas") = true.
Proof.
  intros sha used.
  assert (Hover : @overwriteJobHash manager (deployJob sha) fullHashes = Some used)
    by (vm_compute; reflexivity).
  assert (Hdiff : hashOf used "cas" <> hashOf fullHashes "cas")
    by (vm_compute; discriminate).
  split; [exact Hover|]. split; [exact Hdiff|].
  destruct (overwriteJobHash_frame (H := manager) (deployJob sha) fullHashes
              used Hover) as (_ & _ & Hchange).
  destruct (Hchange "cas" Hdiff) as (_ & Hcomp & _ & Hvalid).
  split; [exact Hcomp | exact Hvalid].
Defined.

End DiscordSpec.
